(** * SimpleWatchdog: a shallow embedding of [simple_watchdog.cpp]

    The development follows the source file top-down: machine integers and
    message records, a three-way outcome monad for C++ control flow
    (normal return, exception, undefined behaviour), [std::map] as a
    key-ordered association list, the diagnosis routine
    [check_messages_in_cache], the notifier [publish_failure], the
    liveliness callback installed by [on_configure], the lifecycle
    callbacks, and the constructor with its argument handling. *)

From Stdlib Require Import ZArith List String Ascii Bool Lia Sorted Permutation.
Import ListNotations.
Open Scope Z_scope.

(** ** Machine integers *)

Definition to_uint32 (z : Z) : Z := z mod 2 ^ 32.
Definition to_int32 (z : Z) : Z := (z + 2 ^ 31) mod 2 ^ 32 - 2 ^ 31.
Definition to_uint64 (z : Z) : Z := z mod 2 ^ 64.
Definition to_int64 (z : Z) : Z := (z + 2 ^ 63) mod 2 ^ 64 - 2 ^ 63.

(** ** Messages *)

(** [builtin_interfaces::msg::Time]: [sec] is an [int32], [nanosec] a
    [uint32]. *)
Record Stamp : Type := { sec : Z; nanosec : Z }.

(** Modelled from the spec: the declaration of
    [sw_watchdog_msgs::msg::Heartbeat] is not among the sources.  It
    carries the header stamp and [checkpoint_id], an integer (spec, section
    3) that the source prints with [%d] and uses as an [int] map key. *)
Record Heartbeat : Type := { stamp : Stamp; checkpoint_id : Z }.

(** Modelled from the spec: the declaration of
    [sw_watchdog_msgs::msg::Status] is not among the sources.  It carries
    the time of the report, here the clock value in nanoseconds, and the
    id of the entity. *)
Record Status : Type := { status_stamp : Z; missed_number : Z }.

(** [rclcpp::QOSLivelinessChangedInfo]. *)
Record QOSLivelinessChangedInfo : Type := {
  alive_count : Z;
  not_alive_count : Z;
  alive_count_change : Z;
  not_alive_count_change : Z
}.

(** ** Outcomes of a C++ computation *)

Inductive exn : Type :=
| out_of_range        (* std::out_of_range *)
| invalid_argument.   (* std::invalid_argument *)

(** A call returns a value, leaves by an exception, or has no defined
    behaviour (null dereference, [back()] of an empty vector). *)
Inductive Outcome (A : Type) : Type :=
| Returned (a : A)
| Threw (e : exn)
| Undefined.

Arguments Returned {A} a.
Arguments Threw {A} e.
Arguments Undefined {A}.

Definition bind {A B : Type} (c : Outcome A) (k : A -> Outcome B) : Outcome B :=
  match c with
  | Returned a => k a
  | Threw e => Threw e
  | Undefined => Undefined
  end.

Declare Scope outcome_scope.
Delimit Scope outcome_scope with outcome.
Notation "x <- c ;; k" := (bind c (fun x => k))
  (at level 61, c at next level, right associativity) : outcome_scope.
Open Scope outcome_scope.

(** A range-based [for] whose body may throw. *)
Fixpoint for_each {A S : Type} (body : S -> A -> Outcome S) (l : list A) (s : S)
  : Outcome S :=
  match l with
  | [] => Returned s
  | a :: rest => s' <- body s a ;; for_each body rest s'
  end.

(** [std::vector::back]: the last element; undefined on an empty vector. *)
Fixpoint back {A : Type} (v : list A) : Outcome A :=
  match v with
  | [] => Undefined
  | [x] => Returned x
  | _ :: rest => back rest
  end.

(** ** [std::map<int, V>] *)

(** Entries are kept in ascending key order, which is the order a
    range-based [for] visits them in. *)
Module StdMap.
Section WithValue.
Context {V : Type}.

Definition t : Type := list (Z * V).

Definition empty : t := [].

Fixpoint count (k : Z) (m : t) : nat :=
  match m with
  | [] => 0%nat
  | (k', _) :: rest => if k =? k' then 1%nat else count k rest
  end.

(** [insert] leaves the map unchanged when the key is present. *)
Fixpoint insert (k : Z) (v : V) (m : t) : t :=
  match m with
  | [] => [(k, v)]
  | (k', v') :: rest =>
      if k =? k' then m
      else if k <? k' then (k, v) :: m
      else (k', v') :: insert k v rest
  end.

(** [at] throws [std::out_of_range] for a missing key. *)
Fixpoint at_ (k : Z) (m : t) : Outcome V :=
  match m with
  | [] => Threw out_of_range
  | (k', v) :: rest => if k =? k' then Returned v else at_ k rest
  end.

(** [m.at(k)] used as an lvalue: the mapped value is changed in place. *)
Fixpoint modify_at (k : Z) (f : V -> V) (m : t) : Outcome t :=
  match m with
  | [] => Threw out_of_range
  | (k', v) :: rest =>
      if k =? k' then Returned ((k', f v) :: rest)
      else rest' <- modify_at k f rest ;; Returned ((k', v) :: rest')
  end.

Definition keys (m : t) : list Z := map fst m.
End WithValue.
Arguments t : clear implicits.
End StdMap.

(** ** The diagnosis routine *)

Section Diagnosis.

(** The two places where the source leaves integer arithmetic.

    [diff_last_msg_to_now now m] is the value of the [double] expression
    at lines 146-147,
    [(now.seconds() - m.sec) * 1000000000 + (now.seconds() - m.sec)],
    after its conversion to [uint64_t]; [now] is the clock reading in
    nanoseconds.

    [nan_to_uint64] is what the platform stores when line 139 converts
    the quotient [0.0 / 0] to [uint64_t]; the language leaves that
    conversion undefined. *)
Variable diff_last_msg_to_now : Z -> Heartbeat -> Z.
Variable nan_to_uint64 : Z.

Definition NodeIdList : Type := StdMap.t (list Heartbeat).

(** Lines 116-125: group the cached messages by checkpoint id. *)
Definition group_message (node_id_list : NodeIdList) (message : Heartbeat)
  : Outcome NodeIdList :=
  if (StdMap.count (checkpoint_id message) node_id_list =? 0)%nat then
    let msg_vec := [message] in
    Returned (StdMap.insert (checkpoint_id message) msg_vec node_id_list)
  else
    StdMap.modify_at (checkpoint_id message) (fun v => v ++ [message]) node_id_list.

Definition build_node_id_list (messages_in_cache : list Heartbeat)
  : Outcome NodeIdList :=
  for_each group_message messages_in_cache StdMap.empty.

(** Lines 131-135, with [prev] for element [i-1] and [cur] for element
    [i].  The seconds are subtracted as [int], the nanoseconds as
    [uint32]; the sum is unsigned and widened to [uint64_t]. *)
Definition intervall (prev cur : Heartbeat) : Z :=
  to_uint64
    (to_uint32
       (to_int32 ((sec (stamp cur) - sec (stamp cur)) * 1000000000)
        + to_uint32 (nanosec (stamp prev) - nanosec (stamp prev)))).

(** Lines 128-137: the [while] loop from [i = 1] to [size() - 1]. *)
Fixpoint intervall_between_msgs (msgs : list Heartbeat) : list Z :=
  match msgs with
  | prev :: ((cur :: _) as rest) => intervall prev cur :: intervall_between_msgs rest
  | _ => []
  end.

Definition accumulate (l : list Z) : Z := fold_left Z.add l 0.

(** Line 139: the sum divided by the number of intervals.  [None] is the
    quotient [0.0 / 0], which is not a number.  The sum and the quotient
    are [double]s in the source and integers here; the two agree on the
    intervals the loop produces, which are all 0 ([intervall_zero]). *)
Definition avg_intervall_between_msgs (intervals : list Z) : option Z :=
  match intervals with
  | [] => None
  | _ :: _ => Some (accumulate intervals / Z.of_nat (List.length intervals))
  end.

Definition avg_as_uint64 (intervals : list Z) : Z :=
  match avg_intervall_between_msgs intervals with
  | Some q => to_uint64 q
  | None => nan_to_uint64
  end.

(** Lines 126-141. *)
Definition build_node_avg_time_inervall_map (node_id_list : NodeIdList)
  : StdMap.t Z :=
  fold_left
    (fun acc node_and_msgs_in_cache =>
       StdMap.insert (fst node_and_msgs_in_cache)
         (avg_as_uint64 (intervall_between_msgs (snd node_and_msgs_in_cache)))
         acc)
    node_id_list StdMap.empty.

(** Lines 144-152.  The assignment in the [if] declares a new local named
    [result]; the [result] of line 142 is the one that survives the
    block. *)
Definition select_step (now : Z) (node_id_list : NodeIdList)
    (result : Z * Z) (node_intervall_pair : Z * Z) : Outcome (Z * Z) :=
  msgs <- StdMap.at_ (fst node_intervall_pair) node_id_list ;;
  last_msg <- back msgs ;;
  let diff := diff_last_msg_to_now now last_msg in
  if diff <? snd result then
    let inner_result := (fst node_intervall_pair, diff) in
    Returned result
  else Returned result.

(** Lines 113-155.  [messages_in_cache] is what
    [heartbeat_cache.getInterval(getOldestTime(), getLatestTime())]
    handed back.  The result pairs [*lost_message] with the returned
    [bool]. *)
Definition check_messages_in_cache (now : Z) (messages_in_cache : list Heartbeat)
  : Outcome (Heartbeat * bool) :=
  node_id_list <- build_node_id_list messages_in_cache ;;
  let node_avg_time_inervall_map := build_node_avg_time_inervall_map node_id_list in
  let result := (-1, 10000000000) in
  result <- for_each (select_step now node_id_list) node_avg_time_inervall_map result ;;
  msgs <- StdMap.at_ (fst result) node_id_list ;;
  lost_message <- back msgs ;;
  Returned (lost_message, false).

End Diagnosis.

(** ** The node *)

(** [rclcpp_lifecycle::LifecyclePublisher], as far as the source relies on
    it (comments at lines 178-179 and 288): inactive on creation, and
    [publish] transfers the message only while the publisher is active. *)
Record LifecyclePublisher : Type := { is_activated : bool }.

Definition create_publisher : LifecyclePublisher := {| is_activated := false |}.

Record QoS : Type := {
  history_depth : Z;
  liveliness_manual_by_topic : bool;
  liveliness_lease_duration : option Z
}.

(** The data members of [SimpleWatchdog] (lines 280-297).  A shared pointer
    is [None] when null; [heartbeat_sub_] has no state of interest beyond
    being null or not.  [heartbeat_cache_size] is the capacity handed to
    [heartbeat_cache.setCacheSize], and [liveliness_callback_installed]
    tells whether [heartbeat_sub_options_] carries the callback. *)
Record SimpleWatchdog : Type := {
  lease_duration_ : Z;
  heartbeat_sub_ : bool;
  heartbeat_cache_size : nat;
  failure_pub_ : option LifecyclePublisher;
  autostart_ : bool;
  enable_pub_ : bool;
  topic_name_ : string;
  qos_profile_ : QoS;
  liveliness_callback_installed : bool
}.

Definition set_failure_pub (w : SimpleWatchdog) (p : option LifecyclePublisher)
  : SimpleWatchdog :=
  {| lease_duration_ := lease_duration_ w;
     heartbeat_sub_ := heartbeat_sub_ w;
     heartbeat_cache_size := heartbeat_cache_size w;
     failure_pub_ := p;
     autostart_ := autostart_ w;
     enable_pub_ := enable_pub_ w;
     topic_name_ := topic_name_ w;
     qos_profile_ := qos_profile_ w;
     liveliness_callback_installed := liveliness_callback_installed w |}.

Definition set_heartbeat_sub (w : SimpleWatchdog) (b : bool) : SimpleWatchdog :=
  {| lease_duration_ := lease_duration_ w;
     heartbeat_sub_ := b;
     heartbeat_cache_size := heartbeat_cache_size w;
     failure_pub_ := failure_pub_ w;
     autostart_ := autostart_ w;
     enable_pub_ := enable_pub_ w;
     topic_name_ := topic_name_ w;
     qos_profile_ := qos_profile_ w;
     liveliness_callback_installed := liveliness_callback_installed w |}.

(** What a run of the liveliness callback does, in order. *)
Inductive Event : Type :=
| Diagnosis                         (* check_messages_in_cache was called *)
| PublishFailure (lost : Heartbeat) (* publish_failure was called *)
| Emit (msg : Status).              (* a Status message left for the sink *)

Section Node.

Variable diff_last_msg_to_now : Z -> Heartbeat -> Z.
Variable nan_to_uint64 : Z.

(** The conversion of a checkpoint id to the integer type of
    [Status::missed_number], which [sw_watchdog_msgs] declares. *)
Variable to_missed_number : Z -> Z.

(** Lines 158-181.  [failure_pub_->publish] on a null [failure_pub_] has
    no defined behaviour. *)
Definition publish_failure (w : SimpleWatchdog) (now : Z) (lost_message : Heartbeat)
  : list Event * Outcome unit :=
  let msg := {| status_stamp := now;
                missed_number := to_missed_number (checkpoint_id lost_message) |} in
  match failure_pub_ w with
  | None => ([PublishFailure lost_message], Undefined)
  | Some pub =>
      if is_activated pub
      then ([PublishFailure lost_message; Emit msg], Returned tt)
      else ([PublishFailure lost_message], Returned tt)
  end.

(** Lines 193-206: the liveliness callback.  [messages_in_cache] is the
    content of the heartbeat cache at the time of the call; [now] and
    [now'] are the two clock readings, in [check_messages_in_cache] and in
    [publish_failure]. *)
Definition liveliness_callback (w : SimpleWatchdog)
    (messages_in_cache : list Heartbeat) (now now' : Z)
    (event : QOSLivelinessChangedInfo) : list Event * Outcome unit :=
  if alive_count_change event <=? 0 then
    match check_messages_in_cache diff_last_msg_to_now nan_to_uint64
            now messages_in_cache with
    | Returned (lost_message, found) =>
        if negb found then
          let (trace, o) := publish_failure w now' lost_message in
          (Diagnosis :: trace, o)
        else ([Diagnosis], Returned tt)
    | Threw e => ([Diagnosis], Threw e)
    | Undefined => ([Diagnosis], Undefined)
    end
  else ([], Returned tt).

End Node.

(** Lines 184-213. *)
Definition on_configure (w : SimpleWatchdog) : Outcome SimpleWatchdog :=
  let qos := {| history_depth := history_depth (qos_profile_ w);
                liveliness_manual_by_topic := true;
                liveliness_lease_duration := Some (lease_duration_ w) |} in
  Returned
    {| lease_duration_ := lease_duration_ w;
       heartbeat_sub_ := heartbeat_sub_ w;
       heartbeat_cache_size := heartbeat_cache_size w;
       failure_pub_ := if enable_pub_ w then Some create_publisher else failure_pub_ w;
       autostart_ := autostart_ w;
       enable_pub_ := enable_pub_ w;
       topic_name_ := topic_name_ w;
       qos_profile_ := qos;
       liveliness_callback_installed := true |}.

(** Lines 216-239. *)
Definition on_activate (w : SimpleWatchdog) : Outcome SimpleWatchdog :=
  let w := if negb (heartbeat_sub_ w) then set_heartbeat_sub w true else w in
  if enable_pub_ w then
    match failure_pub_ w with
    | None => Undefined
    | Some _ => Returned (set_failure_pub w (Some {| is_activated := true |}))
    end
  else Returned w.

(** Lines 242-255. *)
Definition on_deactivate (w : SimpleWatchdog) : Outcome SimpleWatchdog :=
  let w := set_heartbeat_sub w false in
  if enable_pub_ w then
    match failure_pub_ w with
    | None => Undefined
    | Some _ => Returned (set_failure_pub w (Some {| is_activated := false |}))
    end
  else Returned w.

(** Lines 258-265. *)
Definition on_cleanup (w : SimpleWatchdog) : Outcome SimpleWatchdog :=
  Returned (set_failure_pub w None).

(** Lines 268-278. *)
Definition on_shutdown (w : SimpleWatchdog) : Outcome SimpleWatchdog :=
  Returned (set_failure_pub (set_heartbeat_sub w false) None).

(** ** Start-up *)

Definition ULONG_MAX : Z := 2 ^ 64 - 1.

Definition OPTION_AUTO_START : string := "--activate".
Definition OPTION_PUB_STATUS : string := "--publish".
Definition DEFAULT_TOPIC_NAME : string := "heartbeat".

(** [isspace] in the C locale: space and the controls 9 to 13. *)
Definition isspace (c : ascii) : bool :=
  let n := nat_of_ascii c in
  ((n =? 32) || ((9 <=? n) && (n <=? 13)))%nat.

Fixpoint skip_space (s : string) : string :=
  match s with
  | String c rest => if isspace c then skip_space rest else s
  | EmptyString => s
  end.

Definition digit_value (c : ascii) : option Z :=
  let n := Z.of_nat (nat_of_ascii c) in
  if (48 <=? n) && (n <=? 57) then Some (n - 48) else None.

(** The longest prefix of decimal digits; [acc] is [None] until a digit
    has been read. *)
Fixpoint read_digits (s : string) (acc : option Z) : option Z :=
  match s with
  | String c rest =>
      match digit_value c with
      | Some d =>
          read_digits rest (Some (10 * match acc with Some a => a | None => 0 end + d))
      | None => acc
      end
  | EmptyString => acc
  end.

(** [std::stoul(s)] in base 10 with a 64-bit [unsigned long]: leading
    white space, an optional sign, then digits; what follows the digits is
    ignored.  No digit gives [std::invalid_argument], a magnitude above
    [ULONG_MAX] gives [std::out_of_range], and a minus sign negates in the
    unsigned type. *)
Definition stoul (s : string) : Outcome Z :=
  let s := skip_space s in
  let '(negative, s) :=
    match s with
    | String "-"%char rest => (true, rest)
    | String "+"%char rest => (false, rest)
    | _ => (false, s)
    end in
  match read_digits s None with
  | None => Threw invalid_argument
  | Some v =>
      if v <=? ULONG_MAX
      then Returned (if negative then to_uint64 (- v) else v)
      else Threw out_of_range
  end.

(** [rcutils_cli_option_exist]: is [option] one of the arguments? *)
Definition rcutils_cli_option_exist (args : list string) (option : string) : bool :=
  existsb (String.eqb option) args.

(** How the constructor ends: in [print_usage(); std::exit(status)] before
    any member is touched, or, once lines 88-90 have set up the cache with
    [cache_size], in whatever the rest of the body does. *)
Inductive Startup : Type :=
| UsageExit (status : Z)
| AfterCache (cache_size : nat) (o : Outcome SimpleWatchdog).

(** Lines 71-105. *)
Definition SimpleWatchdog_ctor (args : list string) : Startup :=
  if (List.length args <? 2)%nat || rcutils_cli_option_exist args "-h" then
    UsageExit 0
  else
    AfterCache 25
      (lease <- stoul (nth 1 args EmptyString) ;;
       let w := {| lease_duration_ := to_int64 lease;
                   heartbeat_sub_ := false;
                   heartbeat_cache_size := 25;
                   failure_pub_ := None;
                   autostart_ := rcutils_cli_option_exist args OPTION_AUTO_START;
                   enable_pub_ := rcutils_cli_option_exist args OPTION_PUB_STATUS;
                   topic_name_ := DEFAULT_TOPIC_NAME;
                   qos_profile_ := {| history_depth := 10;
                                      liveliness_manual_by_topic := false;
                                      liveliness_lease_duration := None |};
                   liveliness_callback_installed := false |} in
       if autostart_ w then
         w <- on_configure w ;;
         on_activate w
       else Returned w).

(** ** Reference notions used to state the properties *)

(** The messages of one entity, in cache order. *)
Definition messages_of (id : Z) (messages : list Heartbeat) : list Heartbeat :=
  filter (fun m => checkpoint_id m =? id) messages.

(** A stamp in nanoseconds. *)
Definition stamp_ns (m : Heartbeat) : Z :=
  sec (stamp m) * 1000000000 + nanosec (stamp m).

(** The differences between consecutive stamps of a message sequence. *)
Fixpoint consecutive_differences (msgs : list Heartbeat) : list Z :=
  match msgs with
  | prev :: ((cur :: _) as rest) =>
      (stamp_ns cur - stamp_ns prev) :: consecutive_differences rest
  | _ => []
  end.

(** A reading of line 146-147 in exact arithmetic, for running the model on
    concrete inputs: with [d] the nanoseconds from the message's whole
    second to [now], the value is [d + d / 10^9], cut to an integer. *)
Definition exact_diff (now : Z) (m : Heartbeat) : Z :=
  let d := now - sec (stamp m) * 1000000000 in
  to_uint64 (d * 1000000001 / 1000000000).

Definition hb (id s ns : Z) : Heartbeat :=
  {| stamp := {| sec := s; nanosec := ns |}; checkpoint_id := id |}.

(** What [node_id_list.at(k)] holds once the messages [l] have been added
    to a map where it held [o]. *)
Definition grouped (o : Outcome (list Heartbeat)) (l : list Heartbeat)
  : Outcome (list Heartbeat) :=
  match o with
  | Returned v => Returned (v ++ l)
  | _ => match l with [] => Threw out_of_range | _ :: _ => Returned l end
  end.

(** The watchdog that [500 --publish --activate] constructs: configured
    and activated, with an active publisher. *)
Definition active_watchdog : SimpleWatchdog :=
  {| lease_duration_ := 500; heartbeat_sub_ := true; heartbeat_cache_size := 25;
     failure_pub_ := Some {| is_activated := true |};
     autostart_ := true; enable_pub_ := true; topic_name_ := DEFAULT_TOPIC_NAME;
     qos_profile_ := {| history_depth := 10; liveliness_manual_by_topic := true;
                        liveliness_lease_duration := Some 500 |};
     liveliness_callback_installed := true |}.

(** A liveliness event with one entity not alive. *)
Definition loss_event (change : Z) : QOSLivelinessChangedInfo :=
  {| alive_count := 0; not_alive_count := 1;
     alive_count_change := change; not_alive_count_change := 1 |}.

(** The lifecycle callbacks as the transitions that trigger them. *)
Inductive Transition : Type :=
| Configure | Activate | Deactivate | Cleanup | Shutdown.

Definition run_callback (w : SimpleWatchdog) (t : Transition) : Outcome SimpleWatchdog :=
  match t with
  | Configure => on_configure w
  | Activate => on_activate w
  | Deactivate => on_deactivate w
  | Cleanup => on_cleanup w
  | Shutdown => on_shutdown w
  end.

Definition run_callbacks (ts : list Transition) (w : SimpleWatchdog)
  : Outcome SimpleWatchdog :=
  for_each run_callback ts w.

(** The [Status] messages a run of the callback handed to the sink. *)
Definition emitted (trace : list Event) : list Status :=
  flat_map (fun e => match e with Emit msg => [msg] | _ => [] end) trace.

(** Is [failure_pub_] allocated and activated? *)
Definition publisher_active (w : SimpleWatchdog) : bool :=
  match failure_pub_ w with
  | Some pub => is_activated pub
  | None => false
  end.

(** The number of messages a grouped map holds. *)
Definition total_size (m : NodeIdList) : nat :=
  list_sum (map (fun p => List.length (snd p)) m).

(** Does the string begin with a decimal digit? *)
Definition starts_with_digit (s : string) : bool :=
  match s with
  | String c _ => match digit_value c with Some _ => true | None => false end
  | EmptyString => false
  end.

(** The sign step of [stoul]: the flag for a minus sign and what follows
    the sign. *)
Definition split_sign (s : string) : bool * string :=
  match s with
  | String "-"%char rest => (true, rest)
  | String "+"%char rest => (false, rest)
  | _ => (false, s)
  end.

(** The state the constructor builds from an accepted lease and the two
    option flags. *)
Definition constructed (lease : Z) (activate publish : bool) : SimpleWatchdog :=
  {| lease_duration_ := to_int64 lease;
     heartbeat_sub_ := activate;
     heartbeat_cache_size := 25;
     failure_pub_ := if activate && publish
                     then Some {| is_activated := true |} else None;
     autostart_ := activate;
     enable_pub_ := publish;
     topic_name_ := DEFAULT_TOPIC_NAME;
     qos_profile_ :=
       {| history_depth := 10;
          liveliness_manual_by_topic := activate;
          liveliness_lease_duration :=
            if activate then Some (to_int64 lease) else None |};
     liveliness_callback_installed := activate |}.

(** * Properties *)

(** ** Facts about the containers *)

Section StdMapFacts.
Context {V : Type}.
Implicit Types (m : StdMap.t V) (k : Z).

Lemma at_cases k m :
  StdMap.at_ k m = Threw out_of_range \/ exists v, StdMap.at_ k m = Returned v.
Proof.
  induction m as [|[k' v'] rest IH]; simpl; [now left|].
  destruct (k =? k'); [right; now exists v' | exact IH].
Qed.

Lemma count_zero_at k m :
  StdMap.count k m = 0%nat <-> StdMap.at_ k m = Threw out_of_range.
Proof.
  induction m as [|[k' v'] rest IH]; simpl; [tauto|].
  destruct (k =? k'); [split; discriminate | exact IH].
Qed.

Lemma at_insert k k' v m :
  StdMap.count k' m = 0%nat ->
  StdMap.at_ k (StdMap.insert k' v m)
  = if k =? k' then Returned v else StdMap.at_ k m.
Proof.
  induction m as [|[k1 v1] rest IH]; simpl; intros Hc; [reflexivity|].
  destruct (k' =? k1) eqn:E1; [discriminate|].
  destruct (k' <? k1); simpl.
  - reflexivity.
  - rewrite (IH Hc).
    destruct (k =? k1) eqn:E2, (k =? k') eqn:E3; try reflexivity.
    apply Z.eqb_eq in E2, E3. apply Z.eqb_neq in E1. congruence.
Qed.

Lemma modify_at_spec k f m v :
  StdMap.at_ k m = Returned v ->
  exists m', StdMap.modify_at k f m = Returned m' /\
    forall k2, StdMap.at_ k2 m' = if k2 =? k then Returned (f v) else StdMap.at_ k2 m.
Proof.
  induction m as [|[k1 v1] rest IH]; simpl; [discriminate|].
  destruct (k =? k1) eqn:E1.
  - intros [= ->]. eexists; split; [reflexivity|]. intros k2; simpl.
    apply Z.eqb_eq in E1; subst k1.
    now destruct (k2 =? k).
  - intros H. destruct (IH H) as (m' & -> & Hm'). simpl.
    eexists; split; [reflexivity|]. intros k2; simpl. rewrite Hm'.
    destruct (k2 =? k1) eqn:E2, (k2 =? k) eqn:E3; try reflexivity.
    apply Z.eqb_eq in E2, E3. apply Z.eqb_neq in E1. congruence.
Qed.

Lemma keys_at k m :
  In k (StdMap.keys m) -> exists v, StdMap.at_ k m = Returned v.
Proof.
  induction m as [|[k1 v1] rest IH]; simpl; [tauto|].
  intros [->|H].
  - rewrite Z.eqb_refl. now exists v1.
  - destruct (k =? k1); [now exists v1 | auto].
Qed.

Lemma keys_insert k k' v m :
  In k (StdMap.keys (StdMap.insert k' v m)) -> k = k' \/ In k (StdMap.keys m).
Proof.
  induction m as [|[k1 v1] rest IH]; simpl.
  - intros [->|[]]. now left.
  - destruct (k' =? k1); [simpl; tauto|].
    destruct (k' <? k1); simpl.
    + intros [->|H]; tauto.
    + intros [->|H]; [tauto|]. destruct (IH H); tauto.
Qed.

Lemma back_nonempty {A : Type} (v : list A) :
  v <> [] -> exists x, back v = Returned x.
Proof.
  induction v as [|a [|b rest] IH]; intros H; [congruence| now exists a |].
  apply IH. discriminate.
Qed.
End StdMapFacts.

(** ** Facts about the diagnosis routine *)

Lemma group_messages_spec (messages : list Heartbeat) :
  forall node_id_list : NodeIdList,
    exists m', for_each group_message messages node_id_list = Returned m' /\
      forall k, StdMap.at_ k m'
                = grouped (StdMap.at_ k node_id_list) (messages_of k messages).
Proof.
  induction messages as [|a rest IH]; intros m; simpl.
  - exists m; split; [reflexivity|]. intros k.
    destruct (at_cases k m) as [->|[v ->]]; simpl; [reflexivity|].
    now rewrite app_nil_r.
  - unfold group_message at 1.
    destruct (StdMap.count (checkpoint_id a) m =? 0)%nat eqn:Ec.
    + apply Nat.eqb_eq in Ec. simpl.
      destruct (IH (StdMap.insert (checkpoint_id a) [a] m)) as (m' & -> & Hm').
      exists m'; split; [reflexivity|]. intros k. rewrite Hm', (at_insert _ _ _ _ Ec).
      rewrite Z.eqb_sym.
      destruct (checkpoint_id a =? k) eqn:E; [|reflexivity].
      apply Z.eqb_eq in E; subst k.
      apply count_zero_at in Ec. rewrite Ec. reflexivity.
    + apply Nat.eqb_neq in Ec.
      destruct (at_cases (checkpoint_id a) m) as [Hat|[v Hat]];
        [apply count_zero_at in Hat; contradiction|].
      destruct (modify_at_spec _ (fun v => v ++ [a]) _ _ Hat) as (m1 & -> & Hm1).
      simpl.
      destruct (IH m1) as (m' & -> & Hm').
      exists m'; split; [reflexivity|]. intros k. rewrite Hm', Hm1.
      rewrite Z.eqb_sym.
      destruct (checkpoint_id a =? k) eqn:E; [|reflexivity].
      apply Z.eqb_eq in E; subst k. rewrite Hat. simpl.
      now rewrite <- app_assoc.
Qed.

(** Grouping never throws, and each entity's vector is its messages in
    cache order. *)
Lemma build_node_id_list_spec (messages : list Heartbeat) :
  exists m', build_node_id_list messages = Returned m' /\
    forall k, StdMap.at_ k m'
              = match messages_of k messages with
                | [] => Threw out_of_range
                | l => Returned l
                end.
Proof.
  destruct (group_messages_spec messages StdMap.empty) as (m' & H & Hm').
  exists m'; split; [exact H|]. intros k. rewrite Hm'. simpl.
  now destruct (messages_of k messages).
Qed.

Lemma avg_map_keys (nan_to_uint64 : Z) (entries : NodeIdList) :
  forall (acc : StdMap.t Z) k,
    In k (StdMap.keys
            (fold_left
               (fun acc p =>
                  StdMap.insert (fst p)
                    (avg_as_uint64 nan_to_uint64 (intervall_between_msgs (snd p))) acc)
               entries acc)) ->
    In k (StdMap.keys acc) \/ In k (StdMap.keys entries).
Proof.
  induction entries as [|p rest IH]; intros acc k; simpl; [tauto|].
  intros H. destruct (IH _ _ H) as [H1|H1]; [|tauto].
  destruct (keys_insert _ _ _ _ H1) as [->|]; tauto.
Qed.

(** The selection loop hands back the [result] it was given. *)
Lemma select_loop_keeps_result
    (diff : Z -> Heartbeat -> Z) (now : Z) (node_id_list : NodeIdList)
    (entries : StdMap.t Z) (result : Z * Z) :
  (forall k, In k (StdMap.keys entries) ->
     exists v, StdMap.at_ k node_id_list = Returned v /\ v <> []) ->
  for_each (select_step diff now node_id_list) entries result = Returned result.
Proof.
  induction entries as [|p rest IH]; intros Hk; simpl; [reflexivity|].
  destruct (Hk (fst p)) as (v & Hv & Hne); [simpl; tauto|].
  unfold select_step at 1. rewrite Hv. simpl.
  destruct (back_nonempty v Hne) as [x ->]. simpl.
  destruct (diff now x <? snd result); simpl; apply IH;
    intros k Hin; apply Hk; simpl; tauto.
Qed.

(** The routine in closed form: the selected key is always the initial
    [-1] of line 142, whatever the clock, the intervals and the two
    non-integer conversions are. *)
Lemma check_messages_in_cache_spec
    (diff : Z -> Heartbeat -> Z) (nan now : Z) (messages : list Heartbeat) :
  check_messages_in_cache diff nan now messages
  = match messages_of (-1) messages with
    | [] => Threw out_of_range
    | l => lost_message <- back l ;; Returned (lost_message, false)
    end.
Proof.
  unfold check_messages_in_cache.
  destruct (build_node_id_list_spec messages) as (nil & -> & Hnil). simpl.
  rewrite select_loop_keeps_result.
  - simpl. rewrite Hnil. now destruct (messages_of (-1) messages).
  - intros k Hk.
    destruct (avg_map_keys nan nil StdMap.empty k Hk) as [[]|Hin].
    destruct (keys_at _ _ Hin) as [v Hv]. exists v; split; [exact Hv|].
    rewrite Hnil in Hv. destruct (messages_of k messages); congruence.
Qed.


(** Every interval is the difference of a field with itself. *)
Lemma intervall_zero (prev cur : Heartbeat) : intervall prev cur = 0.
Proof. unfold intervall. rewrite !Z.sub_diag. reflexivity. Qed.

Lemma intervall_between_msgs_zero (msgs : list Heartbeat) :
  intervall_between_msgs msgs = repeat 0 (List.length msgs - 1).
Proof.
  induction msgs as [|prev [|cur rest] IH]; try reflexivity.
  change (intervall_between_msgs (prev :: cur :: rest))
    with (intervall prev cur :: intervall_between_msgs (cur :: rest)).
  rewrite IH, intervall_zero. simpl. now rewrite Nat.sub_0_r.
Qed.

Lemma accumulate_zeros (n : nat) : accumulate (repeat 0 n) = 0.
Proof. unfold accumulate. induction n as [|n IH]; [reflexivity | exact IH]. Qed.

(** ** The diagnosis *)

(** C1.  The selection of lines 144-152 is lost: whenever the snapshot has
    no message with checkpoint id -1, whatever the cadences and the clock,
    the routine names no entity and leaves by [std::out_of_range] from
    [node_id_list.at(-1)].  The most overdue entity is not selected. *)
Theorem selection_is_discarded
    (diff : Z -> Heartbeat -> Z) (nan now : Z) (messages : list Heartbeat) :
  messages_of (-1) messages = [] ->
  check_messages_in_cache diff nan now messages = Threw out_of_range.
Proof.
  intros H. rewrite check_messages_in_cache_spec, H. reflexivity.
Qed.

(** Entity 7 with heartbeats at 0, 200 and 400 ms, diagnosed at 1000 ms. *)
Lemma selection_is_discarded_witness :
  messages_of (-1) [hb 7 0 0; hb 7 0 200000000; hb 7 0 400000000] = [] /\
  check_messages_in_cache exact_diff 0 1000000000
    [hb 7 0 0; hb 7 0 200000000; hb 7 0 400000000] = Threw out_of_range.
Proof.
  split; [reflexivity|].
  apply (selection_is_discarded exact_diff 0 1000000000
           [hb 7 0 0; hb 7 0 200000000; hb 7 0 400000000]).
  reflexivity.
Defined.

(** C3.  For an entity with at least two heartbeats the computed mean
    interval is 0, whatever the stamps are: it is not the mean of the
    differences between consecutive stamps. *)
Theorem mean_interval_is_zero (msgs : list Heartbeat) :
  (2 <= List.length msgs)%nat ->
  avg_intervall_between_msgs (intervall_between_msgs msgs) = Some 0.
Proof.
  intros H. rewrite intervall_between_msgs_zero.
  destruct (List.length msgs - 1)%nat as [|n] eqn:E; [lia|].
  unfold avg_intervall_between_msgs.
  change (repeat 0 (S n)) with (0 :: repeat 0 n) at 1.
  cbv iota. rewrite accumulate_zeros. reflexivity.
Qed.

(** Two heartbeats one second apart: the stamps differ by 10^9 ns. *)
Lemma mean_interval_is_zero_witness :
  (2 <= List.length [hb 7 0 0; hb 7 1 0])%nat /\
  consecutive_differences [hb 7 0 0; hb 7 1 0] = [1000000000] /\
  avg_intervall_between_msgs (intervall_between_msgs [hb 7 0 0; hb 7 1 0]) = Some 0.
Proof.
  split; [simpl; lia|]. split; [reflexivity|].
  apply (mean_interval_is_zero [hb 7 0 0; hb 7 1 0]). simpl; lia.
Defined.

(** C4.  An entity with one heartbeat has no interval, so line 139 divides
    [0.0] by zero: the quotient is not a number, and what the map stores
    for the entity is whatever its conversion to [uint64_t] yields. *)
Theorem single_heartbeat_divides_by_zero (nan : Z) (m : Heartbeat) :
  build_node_id_list [m] = Returned [(checkpoint_id m, [m])] /\
  intervall_between_msgs [m] = [] /\
  avg_intervall_between_msgs (intervall_between_msgs [m]) = None /\
  build_node_avg_time_inervall_map nan [(checkpoint_id m, [m])]
  = [(checkpoint_id m, nan)].
Proof. repeat split. Qed.

(** C6.  On an empty history the routine does not end in a defined failure
    value: it leaves by [std::out_of_range]. *)
Theorem empty_history_throws (diff : Z -> Heartbeat -> Z) (nan now : Z) :
  check_messages_in_cache diff nan now [] = Threw out_of_range.
Proof. reflexivity. Qed.

(** C9.  For a fixed snapshot and a fixed clock reading the routine gives
    one result, whichever values the two non-integer conversions take. *)
Theorem diagnosis_deterministic
    (diff diff' : Z -> Heartbeat -> Z) (nan nan' now : Z) (messages : list Heartbeat) :
  check_messages_in_cache diff nan now messages
  = check_messages_in_cache diff' nan' now messages.
Proof. now rewrite !check_messages_in_cache_spec. Qed.

(** ** The liveliness callback and the notifier *)

Lemma publish_failure_called
    (to_missed_number : Z -> Z) (w : SimpleWatchdog) (now : Z) (lost : Heartbeat) :
  In (PublishFailure lost) (fst (publish_failure to_missed_number w now lost)).
Proof.
  unfold publish_failure.
  destruct (failure_pub_ w) as [pub|]; [destruct (is_activated pub)|]; simpl; tauto.
Qed.

(** C2.  The routine has no way to report "no evidence" to its caller.  On
    an empty snapshot the callback is left by [std::out_of_range] instead;
    the flag handed back by a normal return is always [false], which is
    the value the caller publishes on, so every normal return is followed
    by a call of [publish_failure]; and the snapshot that holds a single
    heartbeat, of entity -1, is published as a failure of that entity. *)
Theorem no_evidence_is_not_reported
    (diff : Z -> Heartbeat -> Z) (nan : Z) (to_missed_number : Z -> Z)
    (w : SimpleWatchdog) (now now' : Z) (event : QOSLivelinessChangedInfo) :
  alive_count_change event <= 0 ->
  liveliness_callback diff nan to_missed_number w [] now now' event
  = ([Diagnosis], Threw out_of_range)
  /\ (forall messages lost found,
        check_messages_in_cache diff nan now messages = Returned (lost, found) ->
        found = false /\
        In (PublishFailure lost)
           (fst (liveliness_callback diff nan to_missed_number w messages now now' event)))
  /\ In (PublishFailure (hb (-1) 0 0))
        (fst (liveliness_callback diff nan to_missed_number w [hb (-1) 0 0] now now' event)).
Proof.
  intros Hle. apply Z.leb_le in Hle.
  assert (Hret : forall messages lost found,
             check_messages_in_cache diff nan now messages = Returned (lost, found) ->
             found = false /\
             In (PublishFailure lost)
                (fst (liveliness_callback diff nan to_missed_number w messages
                        now now' event))).
  { intros messages lost found Hc.
    assert (Hf : found = false).
    { rewrite check_messages_in_cache_spec in Hc.
      destruct (messages_of (-1) messages) as [|a l]; [discriminate|].
      destruct (back (a :: l)); simpl in Hc; congruence. }
    split; [exact Hf|]. subst found.
    unfold liveliness_callback. rewrite Hle, Hc. simpl.
    pose proof (publish_failure_called to_missed_number w now' lost) as Hp.
    destruct (publish_failure to_missed_number w now' lost) as [trace o].
    simpl in *. now right. }
  split; [|split].
  - unfold liveliness_callback. rewrite Hle. reflexivity.
  - exact Hret.
  - apply (Hret [hb (-1) 0 0] (hb (-1) 0 0) false).
    rewrite check_messages_in_cache_spec. reflexivity.
Qed.

Lemma no_evidence_is_not_reported_witness :
  alive_count_change (loss_event (-1)) <= 0 /\
  liveliness_callback exact_diff 0 (fun id => id)
    active_watchdog [] 1000000000 1000000000 (loss_event (-1))
  = ([Diagnosis], Threw out_of_range).
Proof.
  assert (H : alive_count_change (loss_event (-1)) <= 0) by (simpl; lia).
  split; [exact H|].
  exact (proj1 (no_evidence_is_not_reported exact_diff 0 (fun id => id)
                  active_watchdog 1000000000 1000000000 (loss_event (-1)) H)).
Defined.

(** C10.  The callback calls the diagnosis exactly when
    [alive_count_change <= 0]; an event with a positive change does
    nothing; and an event with change 0 can end in an emitted [Status]:
    it does for an active publisher and a cache holding a heartbeat of
    entity -1. *)
Theorem diagnosis_runs_iff_alive_count_not_increased :
  (forall (diff : Z -> Heartbeat -> Z) (nan : Z) (to_missed_number : Z -> Z)
          (w : SimpleWatchdog) (messages : list Heartbeat) (now now' : Z)
          (event : QOSLivelinessChangedInfo),
      (In Diagnosis
          (fst (liveliness_callback diff nan to_missed_number w messages now now' event))
       <-> alive_count_change event <= 0)
      /\ (0 < alive_count_change event ->
          liveliness_callback diff nan to_missed_number w messages now now' event
          = ([], Returned tt)))
  /\ (exists (w : SimpleWatchdog) (messages : list Heartbeat),
        forall (diff : Z -> Heartbeat -> Z) (nan : Z) (to_missed_number : Z -> Z)
               (now now' : Z) (event : QOSLivelinessChangedInfo),
          alive_count_change event = 0 ->
          liveliness_callback diff nan to_missed_number w messages now now' event
          = ([Diagnosis; PublishFailure (hb (-1) 0 0);
              Emit {| status_stamp := now'; missed_number := to_missed_number (-1) |}],
             Returned tt)).
Proof.
  split.
  - intros diff nan tm w messages now now' event.
    unfold liveliness_callback.
    destruct (alive_count_change event <=? 0) eqn:E.
    + apply Z.leb_le in E. split; [|lia].
      split; [intros _; exact E|intros _].
      destruct (check_messages_in_cache diff nan now messages) as [[lost found]| |];
        try (simpl; tauto).
      destruct (negb found); [|simpl; tauto].
      destruct (publish_failure tm w now' lost). simpl; tauto.
    + apply Z.leb_gt in E. split; [|reflexivity].
      simpl. split; [tauto|lia].
  - exists active_watchdog, [hb (-1) 0 0].
    intros diff nan tm now now' event E.
    unfold liveliness_callback. rewrite E, check_messages_in_cache_spec. reflexivity.
Qed.

(** Without the publish option no lifecycle callback allocates the
    publisher, and none of them fails. *)
Lemma callbacks_without_publisher (ts : list Transition) :
  forall w : SimpleWatchdog,
    enable_pub_ w = false -> failure_pub_ w = None ->
    exists w', run_callbacks ts w = Returned w' /\
               enable_pub_ w' = false /\ failure_pub_ w' = None.
Proof.
  unfold run_callbacks.
  induction ts as [|t rest IH]; intros w He Hp; simpl.
  - now exists w.
  - assert (Hstep : exists w1, run_callback w t = Returned w1 /\
                               enable_pub_ w1 = false /\ failure_pub_ w1 = None).
    { destruct t; simpl.
      - unfold on_configure. rewrite He. eexists; split; [reflexivity|]. simpl; auto.
      - unfold on_activate. destruct (negb (heartbeat_sub_ w)); simpl; rewrite He;
          eexists; split; try reflexivity; simpl; auto.
      - unfold on_deactivate. simpl. rewrite He.
        eexists; split; [reflexivity|]. simpl; auto.
      - eexists; split; [reflexivity|]. simpl; auto.
      - eexists; split; [reflexivity|]. simpl; auto. }
    destruct Hstep as (w1 & -> & He1 & Hp1). simpl. now apply IH.
Qed.

Lemma option_exist_In (args : list string) (option : string) :
  rcutils_cli_option_exist args option = true <-> In option args.
Proof.
  unfold rcutils_cli_option_exist. rewrite existsb_exists. split.
  - intros (x & Hin & Heq). apply String.eqb_eq in Heq. now subst.
  - intros Hin. exists option. split; [exact Hin | apply String.eqb_refl].
Qed.

Lemma ctor_without_publish_option (args : list string) (n : nat) (w : SimpleWatchdog) :
  SimpleWatchdog_ctor args = AfterCache n (Returned w) ->
  rcutils_cli_option_exist args OPTION_PUB_STATUS = false ->
  enable_pub_ w = false /\ failure_pub_ w = None.
Proof.
  unfold SimpleWatchdog_ctor. intros H Hopt.
  destruct ((List.length args <? 2)%nat || rcutils_cli_option_exist args "-h");
    [discriminate|].
  injection H as _ H.
  destruct (stoul (nth 1 args EmptyString)) as [lease| |]; simpl in H; try discriminate.
  rewrite Hopt in H.
  destruct (rcutils_cli_option_exist args OPTION_AUTO_START); simpl in H;
    injection H as <-; simpl; auto.
Qed.

(** C7.  A watchdog started without the publish option never allocates
    [failure_pub_]: after any sequence of lifecycle callbacks the pointer
    is still null, and [publish_failure] dereferences it.  The notify path
    is then not a safe no-op; it has no defined behaviour. *)
Theorem publish_failure_uses_unallocated_sink
    (to_missed_number : Z -> Z) (args : list string) (n : nat) (w0 : SimpleWatchdog)
    (ts : list Transition) (now : Z) (lost : Heartbeat) :
  SimpleWatchdog_ctor args = AfterCache n (Returned w0) ->
  rcutils_cli_option_exist args OPTION_PUB_STATUS = false ->
  exists w, run_callbacks ts w0 = Returned w /\
            publish_failure to_missed_number w now lost
            = ([PublishFailure lost], Undefined).
Proof.
  intros Hctor Hopt.
  destruct (ctor_without_publish_option _ _ _ Hctor Hopt) as [He Hp].
  destruct (callbacks_without_publisher ts w0 He Hp) as (w & Hrun & _ & Hp').
  exists w; split; [exact Hrun|].
  unfold publish_failure. now rewrite Hp'.
Qed.

(** Started with [500 --activate], later deactivated and activated again. *)
Lemma publish_failure_uses_unallocated_sink_witness :
  exists w0,
    SimpleWatchdog_ctor ["simple_watchdog"; "500"; "--activate"]%string
    = AfterCache 25 (Returned w0) /\
    rcutils_cli_option_exist ["simple_watchdog"; "500"; "--activate"]%string
      OPTION_PUB_STATUS = false /\
    exists w, run_callbacks [Deactivate; Activate] w0 = Returned w /\
              publish_failure (fun id => id) w 1000000000 (hb 7 0 400000000)
              = ([PublishFailure (hb 7 0 400000000)], Undefined).
Proof.
  eexists. split; [reflexivity|]. split; [reflexivity|].
  apply (publish_failure_uses_unallocated_sink (fun id => id)
           ["simple_watchdog"; "500"; "--activate"]%string 25 _
           [Deactivate; Activate] 1000000000 (hb 7 0 400000000));
    reflexivity.
Defined.

(** ** Start-up *)

(** C8, as the source has it.  With fewer than two arguments or with [-h]
    the constructor prints the usage text and exits with status 0 before it
    touches the cache or any member.  Otherwise the cache is set up first;
    then a lease that [std::stoul] accepts lets construction run to its
    end with that lease, and a lease it rejects makes its exception leave
    the constructor. *)
Theorem constructor_outcomes (args : list string) :
  ((List.length args < 2)%nat \/ In "-h"%string args ->
   SimpleWatchdog_ctor args = UsageExit 0)
  /\ ((2 <= List.length args)%nat -> ~ In "-h"%string args ->
      (forall lease, stoul (nth 1 args EmptyString) = Returned lease ->
         exists w, SimpleWatchdog_ctor args = AfterCache 25 (Returned w) /\
                   lease_duration_ w = to_int64 lease /\
                   heartbeat_cache_size w = 25%nat)
      /\ (forall e, stoul (nth 1 args EmptyString) = Threw e ->
            SimpleWatchdog_ctor args = AfterCache 25 (Threw e))).
Proof.
  unfold SimpleWatchdog_ctor. split.
  - intros [Hlen|Hin].
    + apply Nat.ltb_lt in Hlen. now rewrite Hlen.
    + apply option_exist_In in Hin. rewrite Hin. now rewrite orb_true_r.
  - intros Hlen Hh.
    assert (E1 : (List.length args <? 2)%nat = false) by (apply Nat.ltb_ge; lia).
    assert (E2 : rcutils_cli_option_exist args "-h" = false).
    { destruct (rcutils_cli_option_exist args "-h") eqn:E; [|reflexivity].
      apply option_exist_In in E. contradiction. }
    rewrite E1, E2. simpl. split.
    + intros lease ->. simpl.
      destruct (rcutils_cli_option_exist args OPTION_AUTO_START); simpl.
      * unfold on_activate; simpl.
        destruct (rcutils_cli_option_exist args OPTION_PUB_STATUS); simpl;
          eexists; split; try reflexivity; simpl; auto.
      * eexists; split; [reflexivity|]. simpl; auto.
    + intros e ->. reflexivity.
Qed.

Lemma constructor_outcomes_witness :
  SimpleWatchdog_ctor ["simple_watchdog"]%string = UsageExit 0 /\
  (exists w, SimpleWatchdog_ctor ["simple_watchdog"; "500"; "--publish"]%string
             = AfterCache 25 (Returned w) /\
             lease_duration_ w = to_int64 500 /\ heartbeat_cache_size w = 25%nat) /\
  SimpleWatchdog_ctor ["simple_watchdog"; "abc"]%string
  = AfterCache 25 (Threw invalid_argument).
Proof.
  split; [|split].
  - apply (proj1 (constructor_outcomes ["simple_watchdog"]%string)).
    left. simpl. lia.
  - apply (proj2 (constructor_outcomes ["simple_watchdog"; "500"; "--publish"]%string)).
    + simpl. lia.
    + simpl. intros [H|[H|[H|[]]]]; discriminate H.
    + reflexivity.
  - apply (proj2 (constructor_outcomes ["simple_watchdog"; "abc"]%string)).
    + simpl. lia.
    + simpl. intros [H|[H|[]]]; discriminate H.
    + reflexivity.
Defined.

(** A missing lease ends the process with exit status 0, not with a
    non-zero one; a lease without digits prints no usage text and does not
    end the process before the cache exists. *)
Lemma missing_lease_exits_with_status_zero :
  SimpleWatchdog_ctor ["simple_watchdog"]%string = UsageExit 0 /\
  ~ (exists status, status <> 0 /\
       SimpleWatchdog_ctor ["simple_watchdog"]%string = UsageExit status) /\
  (forall status, SimpleWatchdog_ctor ["simple_watchdog"; "abc"]%string
                  <> UsageExit status).
Proof.
  split; [reflexivity|]. split.
  - intros (status & Hne & H). injection H as H. congruence.
  - intros status H. discriminate H.
Qed.

(** * Further properties of the code *)

(** ** Grouping by checkpoint id (lines 115-125) *)

Lemma insert_keys_bound {V : Type} (k0 k : Z) (v : V) (m : StdMap.t V) :
  k0 < k -> Forall (Z.lt k0) (StdMap.keys m) ->
  Forall (Z.lt k0) (StdMap.keys (StdMap.insert k v m)).
Proof.
  intros Hk. induction m as [|[k1 v1] rest IH]; simpl; intros H.
  - constructor; [exact Hk | constructor].
  - inversion H; subst.
    destruct (k =? k1); [simpl; now constructor|].
    destruct (k <? k1); simpl.
    + constructor; [exact Hk | now constructor].
    + constructor; [assumption | now apply IH].
Qed.

Lemma insert_sorted {V : Type} (k : Z) (v : V) (m : StdMap.t V) :
  StronglySorted Z.lt (StdMap.keys m) ->
  StronglySorted Z.lt (StdMap.keys (StdMap.insert k v m)).
Proof.
  induction m as [|[k1 v1] rest IH]; simpl; intros H.
  - constructor; constructor.
  - inversion H as [|? ? Hs Hf]; subst.
    destruct (k =? k1) eqn:E1; [exact H|].
    destruct (k <? k1) eqn:E2; simpl.
    + apply Z.ltb_lt in E2. constructor; [exact H|].
      constructor; [exact E2|].
      eapply Forall_impl; [|exact Hf]. intros a Ha. simpl in Ha. lia.
    + apply Z.ltb_ge in E2. apply Z.eqb_neq in E1.
      constructor; [now apply IH|].
      apply insert_keys_bound; [lia | exact Hf].
Qed.

Lemma modify_at_keys {V : Type} (k : Z) (f : V -> V) (m m' : StdMap.t V) :
  StdMap.modify_at k f m = Returned m' -> StdMap.keys m' = StdMap.keys m.
Proof.
  revert m'. induction m as [|[k1 v1] rest IH]; simpl; intros m'; [discriminate|].
  destruct (k =? k1).
  - intros [= <-]. reflexivity.
  - destruct (StdMap.modify_at k f rest) as [rest'| |]; simpl; try discriminate.
    intros [= <-]. simpl. now rewrite (IH rest').
Qed.

Lemma total_size_insert (k : Z) (v : list Heartbeat) (m : NodeIdList) :
  StdMap.count k m = 0%nat ->
  total_size (StdMap.insert k v m) = (List.length v + total_size m)%nat.
Proof.
  unfold total_size.
  induction m as [|[k1 v1] rest IH]; simpl; intros Hc; [reflexivity|].
  destruct (k =? k1); [discriminate|].
  destruct (k <? k1); simpl; [reflexivity|].
  rewrite (IH Hc). lia.
Qed.

Lemma total_size_push_back (k : Z) (a : Heartbeat) (m m' : NodeIdList) :
  StdMap.modify_at k (fun v => v ++ [a]) m = Returned m' ->
  total_size m' = S (total_size m).
Proof.
  unfold total_size. revert m'.
  induction m as [|[k1 v1] rest IH]; simpl; intros m'; [discriminate|].
  destruct (k =? k1).
  - intros [= <-]. simpl. rewrite length_app. simpl. lia.
  - destruct (StdMap.modify_at k (fun v => v ++ [a]) rest) as [rest'| |];
      simpl; try discriminate.
    intros [= <-]. simpl. rewrite (IH rest' eq_refl). lia.
Qed.

Lemma group_messages_invariants (messages : list Heartbeat) :
  forall m m' : NodeIdList,
    for_each group_message messages m = Returned m' ->
    StronglySorted Z.lt (StdMap.keys m) ->
    StronglySorted Z.lt (StdMap.keys m') /\
    total_size m' = (total_size m + List.length messages)%nat.
Proof.
  induction messages as [|a rest IH]; intros m m'; simpl.
  - intros [= <-] Hs. split; [exact Hs | lia].
  - unfold group_message at 1.
    destruct (StdMap.count (checkpoint_id a) m =? 0)%nat eqn:Ec; simpl.
    + apply Nat.eqb_eq in Ec. intros H Hs.
      destruct (IH _ _ H (insert_sorted _ _ _ Hs)) as [Hs' Ht].
      split; [exact Hs'|]. rewrite Ht, (total_size_insert _ _ _ Ec). simpl. lia.
    + destruct (StdMap.modify_at (checkpoint_id a) (fun v => v ++ [a]) m)
        as [m1| |] eqn:Em; simpl; try discriminate.
      intros H Hs.
      assert (Hs1 : StronglySorted Z.lt (StdMap.keys m1))
        by (rewrite (modify_at_keys _ _ _ _ Em); exact Hs).
      destruct (IH _ _ H Hs1) as [Hs' Ht].
      split; [exact Hs'|]. rewrite Ht, (total_size_push_back _ _ _ _ Em). lia.
Qed.

Lemma sorted_in_at {V : Type} (k : Z) (v : V) (m : StdMap.t V) :
  StronglySorted Z.lt (StdMap.keys m) -> In (k, v) m -> StdMap.at_ k m = Returned v.
Proof.
  induction m as [|[k1 v1] rest IH]; simpl; intros Hs Hin; [contradiction|].
  inversion Hs as [|? ? Hs' Hf]; subst.
  destruct Hin as [[= -> ->]|Hin].
  - now rewrite Z.eqb_refl.
  - destruct (k =? k1) eqn:E; [|now apply IH].
    apply Z.eqb_eq in E; subst k1.
    rewrite Forall_forall in Hf.
    assert (k < k) by (apply Hf; apply (in_map fst _ _ Hin)). lia.
Qed.

Lemma grouping_sorted (messages : list Heartbeat) :
  exists node_id_list,
    build_node_id_list messages = Returned node_id_list /\
    StronglySorted Z.lt (StdMap.keys node_id_list).
Proof.
  destruct (build_node_id_list_spec messages) as (m & Hb & _).
  exists m. split; [exact Hb|].
  now destruct (group_messages_invariants messages StdMap.empty m Hb (SSorted_nil _)).
Qed.

(** X1.  Grouping never fails and partitions the cache: the map's keys
    are strictly ascending, every entry holds exactly the messages of its
    id in cache order (so no vector is empty), an id without a message has
    no entry, and no message is lost or duplicated. *)
Theorem grouping_partitions_cache (messages : list Heartbeat) :
  exists node_id_list,
    build_node_id_list messages = Returned node_id_list /\
    StronglySorted Z.lt (StdMap.keys node_id_list) /\
    (forall k v, In (k, v) node_id_list -> v = messages_of k messages /\ v <> []) /\
    (forall k, messages_of k messages = [] ->
               StdMap.at_ k node_id_list = Threw out_of_range) /\
    total_size node_id_list = List.length messages.
Proof.
  destruct (build_node_id_list_spec messages) as (m & Hb & Hat).
  exists m. split; [exact Hb|].
  destruct (group_messages_invariants messages StdMap.empty m Hb) as [Hs Ht];
    [constructor|].
  split; [exact Hs|]. split; [|split].
  - intros k v Hin. pose proof (sorted_in_at k v m Hs Hin) as H.
    rewrite Hat in H. destruct (messages_of k messages); [discriminate|].
    injection H as <-. split; [reflexivity | discriminate].
  - intros k Hk. now rewrite Hat, Hk.
  - exact Ht.
Qed.

(** ** The interval map (lines 126-141) *)

Lemma insert_after_all {V : Type} (k : Z) (v : V) (m : StdMap.t V) :
  Forall (fun k' => k' < k) (StdMap.keys m) -> StdMap.insert k v m = m ++ [(k, v)].
Proof.
  induction m as [|[k1 v1] rest IH]; simpl; intros H; [reflexivity|].
  inversion H; subst.
  replace (k =? k1) with false by (symmetry; apply Z.eqb_neq; lia).
  replace (k <? k1) with false by (symmetry; apply Z.ltb_ge; lia).
  now rewrite IH.
Qed.

Lemma fold_insert_sorted {V W : Type} (g : Z * V -> W) (entries : StdMap.t V) :
  forall acc : StdMap.t W,
    StronglySorted Z.lt (StdMap.keys acc ++ StdMap.keys entries) ->
    fold_left (fun acc p => StdMap.insert (fst p) (g p) acc) entries acc
    = acc ++ map (fun p => (fst p, g p)) entries.
Proof.
  induction entries as [|p rest IH]; intros acc Hs; simpl.
  - now rewrite app_nil_r.
  - assert (Hlt : Forall (fun k' => k' < fst p) (StdMap.keys acc)).
    { clear IH. unfold StdMap.keys in *. simpl in Hs.
      induction (map fst acc) as [|a l IHl]; [constructor|].
      simpl in Hs. inversion Hs as [|? ? Hs' Hf]; subst.
      constructor; [|now apply IHl].
      rewrite Forall_forall in Hf. apply Hf, in_or_app. right. now left. }
    rewrite (insert_after_all _ _ _ Hlt), IH.
    + now rewrite <- app_assoc.
    + unfold StdMap.keys in *. rewrite map_app, <- app_assoc. exact Hs.
Qed.

Lemma mean_interval_value (msgs : list Heartbeat) :
  (2 <= List.length msgs)%nat ->
  avg_intervall_between_msgs (intervall_between_msgs msgs) = Some 0.
Proof.
  intros H. rewrite intervall_between_msgs_zero.
  destruct (List.length msgs - 1)%nat as [|n] eqn:E; [lia|].
  unfold avg_intervall_between_msgs.
  change (repeat 0 (S n)) with (0 :: repeat 0 n) at 1.
  cbv iota. rewrite accumulate_zeros. reflexivity.
Qed.

Lemma avg_as_uint64_value (nan : Z) (msgs : list Heartbeat) :
  avg_as_uint64 nan (intervall_between_msgs msgs)
  = if (List.length msgs <=? 1)%nat then nan else 0.
Proof.
  unfold avg_as_uint64.
  destruct msgs as [|a [|b rest]]; try reflexivity.
  rewrite mean_interval_value by (simpl; lia).
  reflexivity.
Qed.

(** X2.  The interval map has one entry per entity of the cache, in the
    same key order, and its values carry no timing information: 0 for an
    entity with two or more heartbeats, and the converted not-a-number for
    an entity with one. *)
Theorem interval_map_values (nan : Z) (messages : list Heartbeat) :
  exists node_id_list,
    build_node_id_list messages = Returned node_id_list /\
    build_node_avg_time_inervall_map nan node_id_list
    = map (fun p => (fst p, if (List.length (snd p) <=? 1)%nat then nan else 0))
          node_id_list.
Proof.
  destruct (grouping_sorted messages) as (m & Hb & Hs).
  exists m. split; [exact Hb|].
  unfold build_node_avg_time_inervall_map.
  rewrite (fold_insert_sorted
             (fun p => avg_as_uint64 nan (intervall_between_msgs (snd p)))).
  - simpl. apply map_ext. intros p. now rewrite avg_as_uint64_value.
  - exact Hs.
Qed.

(** ** The routine as a whole (lines 113-155) *)

Lemma back_last {A : Type} (v : list A) (d : A) :
  v <> [] -> back v = Returned (last v d).
Proof.
  induction v as [|a [|b rest] IH]; intros H; [congruence|reflexivity|].
  change (back (a :: b :: rest)) with (back (b :: rest)).
  change (last (a :: b :: rest) d) with (last (b :: rest) d).
  apply IH. discriminate.
Qed.

(** X3.  The result is decided by the messages of entity -1 alone: two
    caches that agree on them give the same result, whatever the other
    entities sent, whatever the clock reads and whatever the two
    non-integer conversions yield. *)
Theorem diagnosis_reads_only_entity_minus_one
    (diff diff' : Z -> Heartbeat -> Z) (nan nan' now now' : Z)
    (messages messages' : list Heartbeat) :
  messages_of (-1) messages = messages_of (-1) messages' ->
  check_messages_in_cache diff nan now messages
  = check_messages_in_cache diff' nan' now' messages'.
Proof.
  intros H. rewrite !check_messages_in_cache_spec. now rewrite H.
Qed.

Lemma diagnosis_reads_only_entity_minus_one_witness :
  messages_of (-1) [hb 7 0 0; hb (-1) 1 0; hb 7 2 0]
  = messages_of (-1) [hb (-1) 1 0; hb 3 9 5] /\
  check_messages_in_cache exact_diff 0 3000000000 [hb 7 0 0; hb (-1) 1 0; hb 7 2 0]
  = check_messages_in_cache (fun _ _ => 0) 1 10000000000 [hb (-1) 1 0; hb 3 9 5].
Proof.
  assert (H : messages_of (-1) [hb 7 0 0; hb (-1) 1 0; hb 7 2 0]
              = messages_of (-1) [hb (-1) 1 0; hb 3 9 5]) by reflexivity.
  split; [exact H|].
  exact (diagnosis_reads_only_entity_minus_one exact_diff (fun _ _ => 0)
           0 1 3000000000 10000000000 _ _ H).
Defined.

(** X4.  When the cache holds a message of entity -1, the routine returns:
    it hands back the last such message in cache order, with the flag
    [false]. *)
Theorem diagnosis_returns_last_of_entity_minus_one
    (diff : Z -> Heartbeat -> Z) (nan now : Z) (messages : list Heartbeat)
    (d : Heartbeat) :
  messages_of (-1) messages <> [] ->
  check_messages_in_cache diff nan now messages
  = Returned (last (messages_of (-1) messages) d, false).
Proof.
  intros H. rewrite check_messages_in_cache_spec.
  destruct (messages_of (-1) messages) as [|a l] eqn:E; [congruence|].
  now rewrite (back_last (a :: l) d H).
Qed.

Lemma diagnosis_returns_last_of_entity_minus_one_witness :
  messages_of (-1) [hb (-1) 0 0; hb 7 1 0; hb (-1) 2 0; hb 7 3 0] <> [] /\
  check_messages_in_cache exact_diff 0 4000000000
    [hb (-1) 0 0; hb 7 1 0; hb (-1) 2 0; hb 7 3 0]
  = Returned (hb (-1) 2 0, false).
Proof.
  assert (H : messages_of (-1) [hb (-1) 0 0; hb 7 1 0; hb (-1) 2 0; hb 7 3 0] <> [])
    by discriminate.
  split; [exact H|].
  exact (diagnosis_returns_last_of_entity_minus_one exact_diff 0 4000000000
           [hb (-1) 0 0; hb 7 1 0; hb (-1) 2 0; hb 7 3 0] (hb 0 0 0) H).
Defined.

(** ** The liveliness callback (lines 193-206) *)

Lemma back_in {A : Type} (v : list A) (x : A) : back v = Returned x -> In x v.
Proof.
  induction v as [|a [|b rest] IH]; simpl; [discriminate| |].
  - intros [= ->]. now left.
  - intros H. right. apply IH. exact H.
Qed.

Lemma check_returns_entity_minus_one
    (diff : Z -> Heartbeat -> Z) (nan now : Z) (messages : list Heartbeat) :
  match messages_of (-1) messages with
  | [] => check_messages_in_cache diff nan now messages = Threw out_of_range
  | _ :: _ => exists lost,
      check_messages_in_cache diff nan now messages = Returned (lost, false) /\
      checkpoint_id lost = -1
  end.
Proof.
  rewrite check_messages_in_cache_spec.
  destruct (messages_of (-1) messages) as [|a l] eqn:E; [reflexivity|].
  destruct (back_nonempty (a :: l)) as [x Hx]; [discriminate|].
  exists x. rewrite Hx. split; [reflexivity|].
  apply back_in in Hx. rewrite <- E in Hx.
  apply filter_In in Hx. destruct Hx as [_ Hx]. now apply Z.eqb_eq in Hx.
Qed.

Lemma callback_emission_closed
    (diff : Z -> Heartbeat -> Z) (nan : Z) (to_missed_number : Z -> Z)
    (w : SimpleWatchdog) (messages : list Heartbeat) (now now' : Z)
    (event : QOSLivelinessChangedInfo) :
  emitted (fst (liveliness_callback diff nan to_missed_number w messages now now' event))
  = match messages_of (-1) messages with
    | [] => []
    | _ :: _ =>
        if (alive_count_change event <=? 0) && publisher_active w
        then [{| status_stamp := now'; missed_number := to_missed_number (-1) |}]
        else []
    end.
Proof.
  pose proof (check_returns_entity_minus_one diff nan now messages) as Hc.
  unfold liveliness_callback, publisher_active.
  destruct (messages_of (-1) messages) as [|a l].
  - rewrite Hc. now destruct (alive_count_change event <=? 0).
  - destruct Hc as (lost & -> & Hid).
    destruct (alive_count_change event <=? 0); [|reflexivity].
    simpl. unfold publish_failure. rewrite Hid.
    destruct (failure_pub_ w) as [pub|]; [|reflexivity].
    now destruct (is_activated pub).
Qed.

(** X5.  What a run of the callback hands to the sink: nothing, or one
    [Status].  It is one exactly when the event has
    [alive_count_change <= 0], the cache holds a message of entity -1 and
    the publisher is allocated and active; that [Status] carries the clock
    value read in [publish_failure] and names entity -1. *)
Theorem callback_emission
    (diff : Z -> Heartbeat -> Z) (nan : Z) (to_missed_number : Z -> Z)
    (w : SimpleWatchdog) (messages : list Heartbeat) (now now' : Z)
    (event : QOSLivelinessChangedInfo) :
  emitted (fst (liveliness_callback diff nan to_missed_number w messages now now' event))
  = match messages_of (-1) messages with
    | [] => []
    | _ :: _ =>
        if (alive_count_change event <=? 0) && publisher_active w
        then [{| status_stamp := now'; missed_number := to_missed_number (-1) |}]
        else []
    end.
Proof. apply callback_emission_closed. Qed.

(** X6.  How a run of the callback ends.  An event with a positive change
    returns at once.  Otherwise the run is left by [std::out_of_range]
    when the cache has no message of entity -1, has no defined behaviour
    when it has one and [failure_pub_] is null, and returns in the
    remaining case. *)
Theorem callback_outcome
    (diff : Z -> Heartbeat -> Z) (nan : Z) (to_missed_number : Z -> Z)
    (w : SimpleWatchdog) (messages : list Heartbeat) (now now' : Z)
    (event : QOSLivelinessChangedInfo) :
  snd (liveliness_callback diff nan to_missed_number w messages now now' event)
  = if alive_count_change event <=? 0 then
      match messages_of (-1) messages with
      | [] => Threw out_of_range
      | _ :: _ => match failure_pub_ w with
                  | None => Undefined
                  | Some _ => Returned tt
                  end
      end
    else Returned tt.
Proof.
  pose proof (check_returns_entity_minus_one diff nan now messages) as Hc.
  unfold liveliness_callback.
  destruct (alive_count_change event <=? 0); [|reflexivity].
  destruct (messages_of (-1) messages) as [|a l].
  - now rewrite Hc.
  - destruct Hc as (lost & -> & _). simpl. unfold publish_failure.
    destruct (failure_pub_ w) as [pub|]; [|reflexivity].
    now destruct (is_activated pub).
Qed.

(** ** The lifecycle callbacks (lines 184-278) *)

Lemma callback_keeps_publisher_invariant (w w' : SimpleWatchdog) (t : Transition) :
  run_callback w t = Returned w' ->
  (failure_pub_ w <> None -> enable_pub_ w = true) ->
  (publisher_active w = true -> heartbeat_sub_ w = true) ->
  enable_pub_ w' = enable_pub_ w /\
  (failure_pub_ w' <> None -> enable_pub_ w' = true) /\
  (publisher_active w' = true -> heartbeat_sub_ w' = true).
Proof.
  destruct w as [lease sub size pub auto en topic qos inst].
  unfold publisher_active. simpl. intros H I1 I2.
  assert (Hpub : en = true \/ pub = None).
  { destruct pub; [left; apply I1; discriminate | now right]. }
  clear I1.
  destruct t; simpl in H;
    unfold on_configure, on_activate, on_deactivate, on_cleanup, on_shutdown in H;
    simpl in H;
    destruct Hpub as [->| ->]; try destruct en; try destruct sub;
    try destruct pub as [[[]]|]; simpl in *; try discriminate;
    injection H as <-; simpl; repeat split; intros; auto; try discriminate;
    try congruence.
Qed.

Lemma callbacks_keep_publisher_invariant (ts : list Transition) :
  forall w w' : SimpleWatchdog,
    run_callbacks ts w = Returned w' ->
    (failure_pub_ w <> None -> enable_pub_ w = true) ->
    (publisher_active w = true -> heartbeat_sub_ w = true) ->
    enable_pub_ w' = enable_pub_ w /\
    (failure_pub_ w' <> None -> enable_pub_ w' = true) /\
    (publisher_active w' = true -> heartbeat_sub_ w' = true).
Proof.
  unfold run_callbacks.
  induction ts as [|t rest IH]; intros w w'; simpl.
  - intros [= <-] I1 I2. auto.
  - destruct (run_callback w t) as [w1| |] eqn:E; simpl; try discriminate.
    intros H I1 I2.
    destruct (callback_keeps_publisher_invariant _ _ _ E I1 I2) as (He & I1' & I2').
    destruct (IH _ _ H I1' I2') as (He' & I1'' & I2'').
    split; [congruence | split; assumption].
Qed.

Lemma ctor_publisher_invariant (args : list string) (n : nat) (w : SimpleWatchdog) :
  SimpleWatchdog_ctor args = AfterCache n (Returned w) ->
  enable_pub_ w = rcutils_cli_option_exist args OPTION_PUB_STATUS /\
  (failure_pub_ w <> None -> enable_pub_ w = true) /\
  (publisher_active w = true -> heartbeat_sub_ w = true).
Proof.
  unfold SimpleWatchdog_ctor, publisher_active. intros H.
  destruct ((List.length args <? 2)%nat || rcutils_cli_option_exist args "-h");
    [discriminate|].
  injection H as _ H.
  destruct (stoul (nth 1 args EmptyString)) as [lease| |]; simpl in H; try discriminate.
  destruct (rcutils_cli_option_exist args OPTION_AUTO_START); simpl in H.
  - unfold on_activate in H; simpl in H.
    destruct (rcutils_cli_option_exist args OPTION_PUB_STATUS); simpl in H;
      injection H as <-; simpl; repeat split; auto; congruence.
  - injection H as <-; simpl. repeat split; auto; congruence.
Qed.

(** X7.  A [Status] can only leave a watchdog that was started with
    [--publish] and whose heartbeat subscription exists: whatever lifecycle
    callbacks ran after construction, if [publish_failure] hands a message
    to the sink, then the option was given and [heartbeat_sub_] is not
    null. *)
Theorem emission_needs_publish_option_and_subscription
    (to_missed_number : Z -> Z) (args : list string) (n : nat)
    (w0 w : SimpleWatchdog) (ts : list Transition) (now : Z) (lost : Heartbeat) :
  SimpleWatchdog_ctor args = AfterCache n (Returned w0) ->
  run_callbacks ts w0 = Returned w ->
  emitted (fst (publish_failure to_missed_number w now lost)) <> [] ->
  In OPTION_PUB_STATUS args /\ heartbeat_sub_ w = true.
Proof.
  intros Hctor Hrun Hemit.
  destruct (ctor_publisher_invariant _ _ _ Hctor) as (He & I1 & I2).
  destruct (callbacks_keep_publisher_invariant _ _ _ Hrun I1 I2) as (He' & I1' & I2').
  assert (Hact : publisher_active w = true).
  { unfold publish_failure, publisher_active in *.
    destruct (failure_pub_ w) as [pub|]; [|now elim Hemit].
    destruct (is_activated pub); [reflexivity | now elim Hemit]. }
  split; [|now apply I2'].
  apply option_exist_In. rewrite <- He, <- He'.
  unfold publisher_active in Hact.
  destruct (failure_pub_ w) as [pub|] eqn:Ep; [|discriminate].
  apply I1'. congruence.
Qed.

(** Started with [500 --publish --activate], deactivated and activated
    again. *)
Lemma emission_needs_publish_option_and_subscription_witness :
  SimpleWatchdog_ctor ["simple_watchdog"; "500"; "--publish"; "--activate"]%string
  = AfterCache 25 (Returned active_watchdog) /\
  run_callbacks [Deactivate; Activate] active_watchdog = Returned active_watchdog /\
  emitted (fst (publish_failure (fun id => id) active_watchdog 1000000000
                  (hb (-1) 0 400000000))) <> [] /\
  In OPTION_PUB_STATUS ["simple_watchdog"; "500"; "--publish"; "--activate"]%string /\
  heartbeat_sub_ active_watchdog = true.
Proof.
  assert (H1 : SimpleWatchdog_ctor
                 ["simple_watchdog"; "500"; "--publish"; "--activate"]%string
               = AfterCache 25 (Returned active_watchdog)) by reflexivity.
  assert (H2 : run_callbacks [Deactivate; Activate] active_watchdog
               = Returned active_watchdog) by reflexivity.
  assert (H3 : emitted (fst (publish_failure (fun id => id) active_watchdog 1000000000
                               (hb (-1) 0 400000000))) <> []) by discriminate.
  split; [exact H1|]. split; [exact H2|]. split; [exact H3|].
  exact (emission_needs_publish_option_and_subscription (fun id => id)
           ["simple_watchdog"; "500"; "--publish"; "--activate"]%string 25
           active_watchdog active_watchdog [Deactivate; Activate] 1000000000
           (hb (-1) 0 400000000) H1 H2 H3).
Defined.

Lemma callback_keeps_configuration (w w' : SimpleWatchdog) (t : Transition) :
  run_callback w t = Returned w' ->
  lease_duration_ w' = lease_duration_ w /\
  heartbeat_cache_size w' = heartbeat_cache_size w /\
  autostart_ w' = autostart_ w /\
  enable_pub_ w' = enable_pub_ w /\
  topic_name_ w' = topic_name_ w /\
  history_depth (qos_profile_ w') = history_depth (qos_profile_ w).
Proof.
  destruct w as [lease sub size pub auto en topic qos inst].
  destruct t; simpl;
    unfold on_configure, on_activate, on_deactivate, on_cleanup, on_shutdown; simpl;
    try destruct sub; try destruct en; try destruct pub; simpl;
    try discriminate; intros [= <-]; simpl; repeat split.
Qed.

(** X8.  The lifecycle callbacks never touch the start-up configuration:
    after any sequence of them that returns, the lease, the cache size,
    the two option flags, the topic name and the queue depth are what the
    constructor set. *)
Theorem lifecycle_keeps_configuration (ts : list Transition) (w w' : SimpleWatchdog) :
  run_callbacks ts w = Returned w' ->
  lease_duration_ w' = lease_duration_ w /\
  heartbeat_cache_size w' = heartbeat_cache_size w /\
  autostart_ w' = autostart_ w /\
  enable_pub_ w' = enable_pub_ w /\
  topic_name_ w' = topic_name_ w /\
  history_depth (qos_profile_ w') = history_depth (qos_profile_ w).
Proof.
  unfold run_callbacks. revert w.
  induction ts as [|t rest IH]; intros w; simpl.
  - intros [= <-]. repeat split.
  - destruct (run_callback w t) as [w1| |] eqn:E; simpl; try discriminate.
    intros H.
    destruct (callback_keeps_configuration _ _ _ E) as (A1 & A2 & A3 & A4 & A5 & A6).
    destruct (IH _ H) as (B1 & B2 & B3 & B4 & B5 & B6).
    repeat split; congruence.
Qed.

Lemma lifecycle_keeps_configuration_witness :
  run_callbacks [Deactivate; Cleanup; Configure; Activate; Shutdown] active_watchdog
  = Returned (set_failure_pub (set_heartbeat_sub active_watchdog false) None) /\
  lease_duration_ (set_failure_pub (set_heartbeat_sub active_watchdog false) None)
  = lease_duration_ active_watchdog.
Proof.
  assert (H : run_callbacks [Deactivate; Cleanup; Configure; Activate; Shutdown]
                active_watchdog
              = Returned (set_failure_pub (set_heartbeat_sub active_watchdog false) None))
    by reflexivity.
  split; [exact H|].
  exact (proj1 (lifecycle_keeps_configuration _ _ _ H)).
Defined.




(** ** The constructor (lines 71-105) *)

Lemma ctor_closed_form (args : list string) (lease : Z) :
  (2 <= List.length args)%nat -> ~ In "-h"%string args ->
  stoul (nth 1 args EmptyString) = Returned lease ->
  SimpleWatchdog_ctor args
  = AfterCache 25
      (Returned (constructed lease
                   (rcutils_cli_option_exist args OPTION_AUTO_START)
                   (rcutils_cli_option_exist args OPTION_PUB_STATUS))).
Proof.
  intros Hlen Hh Hl. unfold SimpleWatchdog_ctor.
  assert (E1 : (List.length args <? 2)%nat = false) by (apply Nat.ltb_ge; lia).
  assert (E2 : rcutils_cli_option_exist args "-h" = false).
  { destruct (rcutils_cli_option_exist args "-h") eqn:E; [|reflexivity].
    apply option_exist_In in E. contradiction. }
  rewrite E1, E2, Hl. simpl.
  destruct (rcutils_cli_option_exist args OPTION_AUTO_START); simpl; [|reflexivity].
  unfold on_activate; simpl.
  now destruct (rcutils_cli_option_exist args OPTION_PUB_STATUS).
Qed.

Lemma option_exist_false (args : list string) (option : string) :
  ~ In option args -> rcutils_cli_option_exist args option = false.
Proof.
  intros H. destruct (rcutils_cli_option_exist args option) eqn:E; [|reflexivity].
  apply option_exist_In in E. contradiction.
Qed.

(** X11.  What the constructor leaves behind for an accepted lease.
    Without [--activate] the node is unconfigured: no subscription, no
    publisher (even with [--publish]), no liveliness callback and no lease
    in the QoS profile.  With [--activate] it has been configured and
    activated: the subscription exists, the callback is installed, the QoS
    profile carries the lease, and the publisher is active exactly when
    [--publish] was given. *)
Theorem constructor_autostart (args : list string) (lease : Z) :
  (2 <= List.length args)%nat -> ~ In "-h"%string args ->
  stoul (nth 1 args EmptyString) = Returned lease ->
  exists w,
    SimpleWatchdog_ctor args = AfterCache 25 (Returned w) /\
    (~ In OPTION_AUTO_START args ->
       heartbeat_sub_ w = false /\ failure_pub_ w = None /\
       liveliness_callback_installed w = false /\
       liveliness_lease_duration (qos_profile_ w) = None) /\
    (In OPTION_AUTO_START args ->
       heartbeat_sub_ w = true /\ liveliness_callback_installed w = true /\
       liveliness_manual_by_topic (qos_profile_ w) = true /\
       liveliness_lease_duration (qos_profile_ w) = Some (lease_duration_ w) /\
       (publisher_active w = true <-> In OPTION_PUB_STATUS args)).
Proof.
  intros Hlen Hh Hl. eexists. split; [apply (ctor_closed_form _ _ Hlen Hh Hl)|].
  unfold publisher_active. split.
  - intros Ha. rewrite (option_exist_false _ _ Ha). simpl. auto.
  - intros Ha. apply option_exist_In in Ha. rewrite Ha. simpl.
    repeat split; try reflexivity.
    + destruct (rcutils_cli_option_exist args OPTION_PUB_STATUS) eqn:E;
        [intros _; now apply option_exist_In | discriminate].
    + intros Hp. apply option_exist_In in Hp. now rewrite Hp.
Qed.

Lemma constructor_autostart_witness :
  exists w,
    SimpleWatchdog_ctor ["simple_watchdog"; "500"; "--publish"]%string
    = AfterCache 25 (Returned w) /\
    heartbeat_sub_ w = false /\ failure_pub_ w = None /\
    liveliness_callback_installed w = false /\
    liveliness_lease_duration (qos_profile_ w) = None.
Proof.
  assert (Hlen : (2 <= List.length ["simple_watchdog"; "500"; "--publish"]%string)%nat)
    by (simpl; lia).
  assert (Hh : ~ In "-h"%string ["simple_watchdog"; "500"; "--publish"]%string)
    by (simpl; intros [H|[H|[H|[]]]]; discriminate H).
  assert (Hl : stoul (nth 1 ["simple_watchdog"; "500"; "--publish"]%string EmptyString)
               = Returned 500) by reflexivity.
  destruct (constructor_autostart _ 500 Hlen Hh Hl) as (w & Hc & Hoff & _).
  exists w. split; [exact Hc|]. apply Hoff.
  simpl; intros [H|[H|[H|[]]]]; discriminate H.
Defined.

(** *** The lease argument (line 94) *)

Lemma stoul_unfold (s : string) :
  stoul s
  = let '(negative, digits) := split_sign (skip_space s) in
    match read_digits digits None with
    | None => Threw invalid_argument
    | Some v =>
        if v <=? ULONG_MAX
        then Returned (if negative then to_uint64 (- v) else v)
        else Threw out_of_range
    end.
Proof. reflexivity. Qed.

Lemma digit_value_range (c : ascii) (d : Z) : digit_value c = Some d -> 0 <= d <= 9.
Proof.
  unfold digit_value.
  destruct ((48 <=? Z.of_nat (nat_of_ascii c)) && (Z.of_nat (nat_of_ascii c) <=? 57))
    eqn:E; [|discriminate].
  intros [= <-]. apply andb_true_iff in E. destruct E as [E1 E2].
  apply Z.leb_le in E1, E2. lia.
Qed.

Lemma read_digits_nonneg (s : string) :
  forall (acc : option Z) (v : Z),
    (forall a, acc = Some a -> 0 <= a) ->
    read_digits s acc = Some v -> 0 <= v.
Proof.
  induction s as [|c rest IH]; intros acc v Hacc; cbn [read_digits].
  - intros ->. now apply Hacc.
  - destruct (digit_value c) as [d|] eqn:Ed.
    + apply IH. intros a Ha. apply digit_value_range in Ed.
      assert (Hm : 0 <= match acc with Some a => a | None => 0 end)
        by (destruct acc as [a0|]; [now apply Hacc | lia]).
      set (m := match acc with Some a => a | None => 0 end) in *.
      assert (E : a = 10 * m + d) by congruence.
      lia.
    + intros ->. now apply Hacc.
Qed.

Lemma digit_is_no_space_or_sign (c : ascii) (rest : string) :
  digit_value c <> None ->
  skip_space (String c rest) = String c rest /\
  split_sign (String c rest) = (false, String c rest).
Proof.
  destruct c as [[] [] [] [] [] [] [] []]; intros H;
    try (exfalso; apply H; reflexivity); split; reflexivity.
Qed.

(** A digit string with a minus sign in front parses to the negation, in
    the unsigned type, of what the digit string parses to. *)
Lemma stoul_minus (s : string) (v : Z) :
  starts_with_digit s = true -> stoul s = Returned v ->
  stoul (String "-" s) = Returned (to_uint64 (- v)) /\ 0 <= v.
Proof.
  destruct s as [|c rest]; simpl; [discriminate|].
  destruct (digit_value c) as [d|] eqn:Ed; [intros _|discriminate].
  assert (Hd : digit_value c <> None) by congruence.
  destruct (digit_is_no_space_or_sign c rest Hd) as [Hs Hg].
  assert (Hneg : stoul (String "-" (String c rest))
                 = match read_digits (String c rest) None with
                   | None => Threw invalid_argument
                   | Some v =>
                       if v <=? ULONG_MAX then Returned (to_uint64 (- v))
                       else Threw out_of_range
                   end) by reflexivity.
  rewrite Hneg, stoul_unfold, Hs, Hg. clear Hneg.
  destruct (read_digits (String c rest) None) as [v0|] eqn:Er; [|discriminate].
  destruct (v0 <=? ULONG_MAX); [|discriminate].
  intros [= ->]. split; [reflexivity|].
  apply (read_digits_nonneg (String c rest) None v); [discriminate | exact Er].
Qed.

Lemma to_int64_neg (v : Z) : 0 <= v <= 2 ^ 63 -> to_int64 (to_uint64 (- v)) = - v.
Proof.
  intros H. unfold to_int64, to_uint64.
  destruct (Z.eq_dec v 0) as [->|Hv]; [reflexivity|].
  assert (E1 : (- v) mod 2 ^ 64 = 2 ^ 64 - v).
  { symmetry. apply (Z.mod_unique _ _ (-1)); lia. }
  rewrite E1.
  assert (E2 : (2 ^ 64 - v + 2 ^ 63) mod 2 ^ 64 = 2 ^ 63 - v).
  { symmetry. apply (Z.mod_unique _ _ 1); lia. }
  rewrite E2. lia.
Qed.

(** X12.  The constructor accepts a negative lease.  When the lease
    argument is a minus sign followed by a digit string of value [v] up to
    [2^63], construction proceeds and [lease_duration_] is [-v]
    milliseconds. *)
Theorem negative_lease_is_accepted (args : list string) (s : string) (v : Z) :
  (2 <= List.length args)%nat -> ~ In "-h"%string args ->
  nth 1 args EmptyString = String "-" s ->
  starts_with_digit s = true -> stoul s = Returned v -> v <= 2 ^ 63 ->
  exists w, SimpleWatchdog_ctor args = AfterCache 25 (Returned w) /\
            lease_duration_ w = - v.
Proof.
  intros Hlen Hh Harg Hd Hs Hv.
  destruct (stoul_minus s v Hd Hs) as [Hm H0].
  rewrite <- Harg in Hm.
  eexists. split; [apply (ctor_closed_form _ _ Hlen Hh Hm)|].
  simpl. apply to_int64_neg. lia.
Qed.

Lemma negative_lease_is_accepted_witness :
  exists w, SimpleWatchdog_ctor ["simple_watchdog"; "-500"]%string
            = AfterCache 25 (Returned w) /\
            lease_duration_ w = - 500.
Proof.
  apply (negative_lease_is_accepted ["simple_watchdog"; "-500"]%string "500" 500).
  - simpl; lia.
  - simpl; intros [H|[H|[]]]; discriminate H.
  - reflexivity.
  - reflexivity.
  - reflexivity.
  - vm_compute. discriminate.
Defined.

Lemma read_digits_app (s t : string) :
  starts_with_digit t = false ->
  forall acc, read_digits (s ++ t) acc = read_digits s acc.
Proof.
  intros Ht. induction s as [|c rest IH]; intros acc; cbn [append read_digits].
  - destruct t as [|c rest]; [reflexivity|]. cbn [read_digits].
    unfold starts_with_digit in Ht.
    now destruct (digit_value c).
  - destruct (digit_value c); [apply IH | reflexivity].
Qed.

Lemma skip_space_app (s t : string) :
  skip_space s <> EmptyString -> (skip_space (s ++ t) = skip_space s ++ t)%string.
Proof.
  induction s as [|c rest IH]; cbn [append skip_space]; [congruence|].
  destruct (isspace c); [exact IH | reflexivity].
Qed.

Lemma split_sign_app (c : ascii) (rest t : string) :
  split_sign (String c rest ++ t)
  = (fst (split_sign (String c rest)), (snd (split_sign (String c rest)) ++ t)%string).
Proof. destruct c as [[] [] [] [] [] [] [] []]; reflexivity. Qed.

(** What follows an accepted lease is not read, unless it starts with a
    digit. *)
Lemma stoul_app (s t : string) (v : Z) :
  stoul s = Returned v -> starts_with_digit t = false ->
  stoul (s ++ t) = Returned v.
Proof.
  intros Hs Ht. rewrite stoul_unfold in *.
  assert (Hne : skip_space s <> EmptyString).
  { intros E. rewrite E in Hs. discriminate Hs. }
  rewrite (skip_space_app s t Hne).
  destruct (skip_space s) as [|c rest]; [congruence|].
  rewrite split_sign_app.
  destruct (split_sign (String c rest)) as [negative digits]. cbn [fst snd].
  now rewrite (read_digits_app digits t Ht).
Qed.

Lemma accepted_lease_is_no_option (option s : string) (v : Z) :
  stoul option = Threw invalid_argument -> stoul s = Returned v ->
  String.eqb option s = false.
Proof.
  intros Ho Hs. destruct (String.eqb option s) eqn:E; [|reflexivity].
  apply String.eqb_eq in E. subst. congruence.
Qed.

(** X13.  Text after the number of the lease is ignored.  If the lease
    argument is accepted, appending any text that does not start with a
    digit gives the same construction; [500ms] and [500.7] both start the
    watchdog as [500] does. *)
Theorem lease_trailing_text_is_ignored
    (name s t : string) (options : list string) (v : Z) :
  stoul s = Returned v -> starts_with_digit t = false ->
  SimpleWatchdog_ctor (name :: (s ++ t)%string :: options)
  = SimpleWatchdog_ctor (name :: s :: options).
Proof.
  intros Hs Ht. pose proof (stoul_app s t v Hs Ht) as Hst.
  unfold SimpleWatchdog_ctor, rcutils_cli_option_exist.
  cbn [existsb nth List.length].
  rewrite !(accepted_lease_is_no_option "-h" _ v eq_refl Hs),
          !(accepted_lease_is_no_option "-h" _ v eq_refl Hst),
          !(accepted_lease_is_no_option OPTION_AUTO_START _ v eq_refl Hs),
          !(accepted_lease_is_no_option OPTION_AUTO_START _ v eq_refl Hst),
          !(accepted_lease_is_no_option OPTION_PUB_STATUS _ v eq_refl Hs),
          !(accepted_lease_is_no_option OPTION_PUB_STATUS _ v eq_refl Hst).
  now rewrite Hs, Hst.
Qed.

Lemma lease_trailing_text_is_ignored_witness :
  stoul "500" = Returned 500 /\ starts_with_digit "ms" = false /\
  SimpleWatchdog_ctor ["simple_watchdog"; "500ms"; "--activate"]%string
  = SimpleWatchdog_ctor ["simple_watchdog"; "500"; "--activate"]%string.
Proof.
  assert (H1 : stoul "500" = Returned 500) by reflexivity.
  assert (H2 : starts_with_digit "ms" = false) by reflexivity.
  split; [exact H1|]. split; [exact H2|].
  exact (lease_trailing_text_is_ignored "simple_watchdog" "500" "ms"
           ["--activate"%string] 500 H1 H2).
Defined.

Lemma existsb_permutation {A : Type} (f : A -> bool) (l l' : list A) :
  Permutation l l' -> existsb f l = existsb f l'.
Proof.
  induction 1 as [|x l l' _ IH|x y l|l l' l'' _ IH1 _ IH2]; simpl.
  - reflexivity.
  - now rewrite IH.
  - now destruct (f x), (f y).
  - congruence.
Qed.

(** X14.  The arguments after the lease are a set of options: giving them
    in another order does not change what the constructor does. *)
Theorem option_order_is_irrelevant (name lease : string) (options options' : list string) :
  Permutation options options' ->
  SimpleWatchdog_ctor (name :: lease :: options)
  = SimpleWatchdog_ctor (name :: lease :: options').
Proof.
  intros Hp. unfold SimpleWatchdog_ctor, rcutils_cli_option_exist.
  cbn [existsb nth List.length].
  rewrite !(existsb_permutation _ _ _ Hp).
  reflexivity.
Qed.

Lemma option_order_is_irrelevant_witness :
  Permutation ["--publish"; "--activate"]%string ["--activate"; "--publish"]%string /\
  SimpleWatchdog_ctor ["simple_watchdog"; "500"; "--publish"; "--activate"]%string
  = SimpleWatchdog_ctor ["simple_watchdog"; "500"; "--activate"; "--publish"]%string.
Proof.
  assert (H : Permutation ["--publish"; "--activate"]%string
                          ["--activate"; "--publish"]%string) by apply perm_swap.
  split; [exact H|].
  exact (option_order_is_irrelevant "simple_watchdog" "500" _ _ H).
Defined.

Lemma to_int64_small (v : Z) : 0 <= v < 2 ^ 63 -> to_int64 v = v.
Proof.
  intros H. unfold to_int64.
  assert (E : (v + 2 ^ 63) mod 2 ^ 64 = v + 2 ^ 63).
  { symmetry. apply (Z.mod_unique _ _ 0); lia. }
  rewrite E. lia.
Qed.

Lemma to_int64_large (v : Z) : 2 ^ 63 <= v < 2 ^ 64 -> to_int64 v = v - 2 ^ 64.
Proof.
  intros H. unfold to_int64.
  assert (E : (v + 2 ^ 63) mod 2 ^ 64 = v - 2 ^ 63).
  { symmetry. apply (Z.mod_unique _ _ 1); lia. }
  rewrite E. lia.
Qed.

Lemma stoul_unsigned_range (s : string) (v : Z) :
  starts_with_digit s = true -> stoul s = Returned v -> 0 <= v <= ULONG_MAX.
Proof.
  destruct s as [|c rest]; simpl; [discriminate|].
  destruct (digit_value c) as [d|] eqn:Ed; [intros _|discriminate].
  assert (Hd : digit_value c <> None) by congruence.
  destruct (digit_is_no_space_or_sign c rest Hd) as [Hs Hg].
  rewrite stoul_unfold, Hs, Hg.
  destruct (read_digits (String c rest) None) as [v0|] eqn:Er; [|discriminate].
  destruct (v0 <=? ULONG_MAX) eqn:Ev; [|discriminate].
  intros [= ->]. apply Z.leb_le in Ev. split; [|exact Ev].
  apply (read_digits_nonneg (String c rest) None v); [discriminate | exact Er].
Qed.

(** X15.  How a lease given in digits becomes [lease_duration_]: a value
    below [2^63] is kept as it is, and a larger one that [std::stoul] still
    accepts wraps around to the negative value [v - 2^64]. *)
Theorem lease_value_is_kept_below_2_63 (args : list string) (v : Z) :
  (2 <= List.length args)%nat -> ~ In "-h"%string args ->
  starts_with_digit (nth 1 args EmptyString) = true ->
  stoul (nth 1 args EmptyString) = Returned v ->
  exists w, SimpleWatchdog_ctor args = AfterCache 25 (Returned w) /\
            (v < 2 ^ 63 -> lease_duration_ w = v) /\
            (2 ^ 63 <= v -> lease_duration_ w = v - 2 ^ 64).
Proof.
  intros Hlen Hh Hd Hs.
  pose proof (stoul_unsigned_range _ _ Hd Hs) as Hr. unfold ULONG_MAX in Hr.
  eexists. split; [apply (ctor_closed_form _ _ Hlen Hh Hs)|]. simpl. split.
  - intros Hv. apply to_int64_small. lia.
  - intros Hv. apply to_int64_large. lia.
Qed.

Lemma lease_value_is_kept_below_2_63_witness :
  exists w,
    SimpleWatchdog_ctor ["simple_watchdog"; "18446744073709551615"]%string
    = AfterCache 25 (Returned w) /\
    lease_duration_ w = 18446744073709551615 - 2 ^ 64.
Proof.
  assert (Hlen : (2 <= List.length
                         ["simple_watchdog"; "18446744073709551615"]%string)%nat)
    by (simpl; lia).
  assert (Hh : ~ In "-h"%string ["simple_watchdog"; "18446744073709551615"]%string)
    by (simpl; intros [H|[H|[]]]; discriminate H).
  assert (Hd : starts_with_digit
                 (nth 1 ["simple_watchdog"; "18446744073709551615"]%string EmptyString)
               = true) by reflexivity.
  assert (Hs : stoul (nth 1 ["simple_watchdog"; "18446744073709551615"]%string
                        EmptyString)
               = Returned 18446744073709551615) by reflexivity.
  destruct (lease_value_is_kept_below_2_63 _ _ Hlen Hh Hd Hs) as (w & Hc & _ & Hbig).
  exists w. split; [exact Hc|]. apply Hbig. vm_compute. discriminate.
Defined.

(** ** The callbacks together *)

Lemma run_callbacks_snoc (ts : list Transition) (t : Transition) :
  forall w, run_callbacks (ts ++ [t]) w
            = (w1 <- run_callbacks ts w ;; run_callback w1 t).
Proof.
  unfold run_callbacks.
  induction ts as [|t0 rest IH]; intros w; simpl.
  - now destruct (run_callback w t).
  - destruct (run_callback w t0) as [w1| |]; simpl; [apply IH | reflexivity..].
Qed.

Lemma inactive_unless_activated (w w' : SimpleWatchdog) (t : Transition) :
  run_callback w t = Returned w' ->
  (failure_pub_ w <> None -> enable_pub_ w = true) ->
  t <> Activate -> publisher_active w' = false.
Proof.
  destruct w as [lease sub size pub auto en topic qos inst].
  unfold publisher_active. simpl. intros H I1 Ht.
  assert (Hpub : en = true \/ pub = None).
  { destruct pub; [left; apply I1; discriminate | now right]. }
  clear I1.
  destruct t; try congruence; simpl in H;
    unfold on_configure, on_deactivate, on_cleanup, on_shutdown in H; simpl in H;
    destruct Hpub as [->| ->]; try destruct en; try destruct pub as [[[]]|];
    simpl in *; try discriminate; injection H as <-; reflexivity.
Qed.

(** X16.  Only an activated watchdog publishes.  After construction and
    any sequence of lifecycle callbacks whose last one is not
    [on_activate], a run of the liveliness callback hands nothing to the
    sink, whatever the cache and the event are. *)
Theorem no_emission_unless_last_callback_activates
    (diff : Z -> Heartbeat -> Z) (nan : Z) (to_missed_number : Z -> Z)
    (args : list string) (n : nat) (w0 w : SimpleWatchdog)
    (ts : list Transition) (t : Transition)
    (messages : list Heartbeat) (now now' : Z) (event : QOSLivelinessChangedInfo) :
  SimpleWatchdog_ctor args = AfterCache n (Returned w0) ->
  run_callbacks (ts ++ [t]) w0 = Returned w ->
  t <> Activate ->
  emitted (fst (liveliness_callback diff nan to_missed_number w messages now now' event))
  = [].
Proof.
  intros Hctor Hrun Ht.
  destruct (ctor_publisher_invariant _ _ _ Hctor) as (_ & I1 & I2).
  rewrite run_callbacks_snoc in Hrun.
  destruct (run_callbacks ts w0) as [w1| |] eqn:E1; simpl in Hrun; try discriminate.
  destruct (callbacks_keep_publisher_invariant _ _ _ E1 I1 I2) as (_ & I1' & _).
  rewrite callback_emission_closed, (inactive_unless_activated _ _ _ Hrun I1' Ht).
  rewrite andb_false_r. now destruct (messages_of (-1) messages).
Qed.

Lemma no_emission_unless_last_callback_activates_witness :
  SimpleWatchdog_ctor ["simple_watchdog"; "500"; "--publish"; "--activate"]%string
  = AfterCache 25 (Returned active_watchdog) /\
  run_callbacks ([] ++ [Deactivate]) active_watchdog
  = Returned (set_failure_pub (set_heartbeat_sub active_watchdog false)
                (Some {| is_activated := false |})) /\
  emitted (fst (liveliness_callback exact_diff 0 (fun id => id)
                  (set_failure_pub (set_heartbeat_sub active_watchdog false)
                     (Some {| is_activated := false |}))
                  [hb (-1) 0 0] 1000000000 1000000000 (loss_event (-1))))
  = [].
Proof.
  assert (H1 : SimpleWatchdog_ctor
                 ["simple_watchdog"; "500"; "--publish"; "--activate"]%string
               = AfterCache 25 (Returned active_watchdog)) by reflexivity.
  assert (H2 : run_callbacks ([] ++ [Deactivate]) active_watchdog
               = Returned (set_failure_pub (set_heartbeat_sub active_watchdog false)
                             (Some {| is_activated := false |}))) by reflexivity.
  split; [exact H1|]. split; [exact H2|].
  refine (no_emission_unless_last_callback_activates exact_diff 0 (fun id => id)
            ["simple_watchdog"; "500"; "--publish"; "--activate"]%string 25
            active_watchdog _ [] Deactivate [hb (-1) 0 0] 1000000000 1000000000
            (loss_event (-1)) H1 H2 _).
  discriminate.
Defined.
